(** * KeeWeb: the Dropbox storage backend and the workspace tag list

    A shallow embedding of [app/scripts/storage/impl/storage-dropbox.ts]
    (class [StorageDropbox]) and of the tag bookkeeping of the [Workspace]
    model, followed by the properties the storage specification states about
    them.

    Conventions of the embedding:
    - a JavaScript string is the list of its UTF-16 code units, each a [Z];
    - a JavaScript value is a [JsVal]; reading a property of [null] or
      [undefined] raises [TypeError], as it does in the engine;
    - a method that can throw (or whose promise can reject) runs in the monad
      [M]: it takes the [World] (the application settings and the log of
      calls made on collaborators) and returns an [Outcome] with the new
      world; what was written before a throw stays written;
    - collaborators whose code is not part of the embedded sources
      ([StorageBase.xhr], [oauthAuthorize], [oauthRevokeToken], the
      [DropboxApps] table, [Locale], [Features]) are parameters;
    - so is [String.prototype.toLowerCase], whose case tables belong to the
      engine: the functions that call it take it as [toLowerCase];
    - logger calls are left out: they do not influence any result. *)

From Stdlib Require Import ZArith List String Ascii Bool Lia.
From Stdlib Require Import Sorting.Sorted Sorting.Permutation Sorting.Mergesort.
From Stdlib Require Import Structures.Orders.
Import ListNotations.
Local Open Scope Z_scope.

(* ===================================================================== *)
(** * JavaScript strings and values                                       *)
(* ===================================================================== *)

Module Js.

(** A string is its sequence of UTF-16 code units. *)
Definition jsstring := list Z.

(** A well-formed code unit fits 16 bits. *)
Definition isCodeUnit (c : Z) : Prop := 0 <= c <= 65535.

(** String literals of the source, written as Rocq strings. *)
Definition js (s : string) : jsstring :=
  map (fun a => Z.of_N (N_of_ascii a)) (list_ascii_of_string s).

Definition slash : Z := 47.
Definition backslash : Z := 92.
Definition comma : Z := 44.

(** [a === b] on strings. *)
Fixpoint str_eqb (a b : jsstring) : bool :=
  match a, b with
  | [], [] => true
  | x :: a', y :: b' => (x =? y) && str_eqb a' b'
  | _, _ => false
  end.

(** [String.prototype.startsWith], used to define [indexOf]. *)
Fixpoint startsWith (hay needle : jsstring) {struct needle} : bool :=
  match needle, hay with
  | [], _ => true
  | n :: needle', h :: hay' => (h =? n) && startsWith hay' needle'
  | _ :: _, [] => false
  end.

Fixpoint indexOfFrom (hay needle : jsstring) (i : Z) : Z :=
  if startsWith hay needle then i
  else match hay with
       | [] => -1
       | _ :: hay' => indexOfFrom hay' needle (i + 1)
       end.

(** [hay.indexOf(needle)]: the first position where [needle] occurs, or -1. *)
Definition indexOf (hay needle : jsstring) : Z := indexOfFrom hay needle 0.

Definition length (s : jsstring) : Z := Z.of_nat (List.length s).

(** [s.substr(start)] with one argument: a negative [start] counts from the
    end, and anything past the end gives the empty string. *)
Definition substr (s : jsstring) (start : Z) : jsstring :=
  let from := if start <? 0 then Z.max (length s + start) 0 else start in
  skipn (Z.to_nat from) s.

(** [s.slice(start)] with one argument. *)
Definition slice (s : jsstring) (start : Z) : jsstring :=
  let from := if start <? 0 then Z.max (length s + start) 0
              else Z.min start (length s) in
  skipn (Z.to_nat from) s.

(** [String.prototype.toLowerCase] belongs to the engine: it converts the
    text by the Unicode case mappings, code point by code point, the form of
    a capital sigma depending on the letters around it; the converted text
    need not have the length of the original.  Those tables are not part of
    this development: a function that calls [toLowerCase] takes the
    conversion as its parameter [toLowerCase].  Where a proof needs more of
    the conversion than that it is a function, its statement assumes one of
    the two properties below; the engine's conversion has both. *)

(** The conversion of ASCII text: the letters A-Z become a-z, every other
    code unit stays. *)
Definition lowerUnit (c : Z) : Z :=
  if (65 <=? c) && (c <=? 90) then c + 32 else c.

Definition asciiLower (s : jsstring) : jsstring := map lowerUnit s.

Definition isAscii (s : jsstring) : Prop :=
  Forall (fun c => 0 <= c <= 127) s.

Definition isAsciib (s : jsstring) : bool :=
  forallb (fun c => (0 <=? c) && (c <=? 127)) s.

(** On ASCII text the conversion is [asciiLower]. *)
Definition lowersAscii (toLowerCase : jsstring -> jsstring) : Prop :=
  forall s, isAscii s -> toLowerCase s = asciiLower s.

(** The conversion works between the slashes of a text: the empty text
    stays empty, a slash stays where it is with the text before it and the
    text after it converted each on its own (a slash is no letter and is not
    ignored when the neighbours of a sigma are looked up), and a text that
    does not begin with a slash is converted to one that does not either. *)
Definition keepsSlashes (toLowerCase : jsstring -> jsstring) : Prop :=
  toLowerCase [] = []
  /\ (forall a b,
        toLowerCase (a ++ slash :: b)
        = toLowerCase a ++ slash :: toLowerCase b)
  /\ (forall c s, c <> slash ->
                  exists d t, toLowerCase (c :: s) = d :: t /\ d <> slash).

(** White space and line terminators, as [String.prototype.trim] strips
    them. *)
Definition isWhiteSpace (c : Z) : bool :=
  ((9 <=? c) && (c <=? 13)) || (c =? 32) || (c =? 160) || (c =? 5760)
  || ((8192 <=? c) && (c <=? 8202)) || (c =? 8232) || (c =? 8233)
  || (c =? 8239) || (c =? 8287) || (c =? 12288) || (c =? 65279).

Fixpoint trimStart (s : jsstring) : jsstring :=
  match s with
  | c :: s' => if isWhiteSpace c then trimStart s' else s
  | [] => []
  end.

Definition trimEnd (s : jsstring) : jsstring := rev (trimStart (rev s)).

Definition trim (s : jsstring) : jsstring := trimEnd (trimStart s).

(** [arr.join(sep)]. *)
Fixpoint join (sep : jsstring) (l : list jsstring) : jsstring :=
  match l with
  | [] => []
  | [s] => s
  | s :: l' => s ++ sep ++ join sep l'
  end.

(** Digits of a non-negative integer in a radix up to 16: lowercase, most
    significant first.  The fuel bounds the number of digits. *)
Definition hexDigit (d : Z) : Z := if d <? 10 then 48 + d else 87 + d.

Fixpoint digitsFuel (radix : Z) (fuel : nat) (n : Z) (acc : jsstring)
  : jsstring :=
  match fuel with
  | O => acc
  | S fuel' =>
      let acc' := hexDigit (n mod radix) :: acc in
      if n / radix =? 0 then acc' else digitsFuel radix fuel' (n / radix) acc'
  end.

(** [n.toString(16)] for a non-negative integer.  Sixteen digits cover every
    value below [2^64]; [charCodeAt] never exceeds [0xffff]. *)
Definition toString16 (n : Z) : jsstring := digitsFuel 16 16 n [].

(** Decimal digits of a number, as in a template literal [`${n}`].  The
    numbers of this development are integers; an integer prints in plain
    decimal up to [10^21], which twenty-two digits cover. *)
Definition numberToString (n : Z) : jsstring :=
  if n <? 0 then 45 :: digitsFuel 10 22 (- n) [] else digitsFuel 10 22 n [].

(** JavaScript values, as far as JSON produces them.  Numbers are integers
    here (HTTP statuses and the like). *)
#[warnings="-register-all"]
Inductive JsVal : Type :=
| JUndefined
| JNull
| JBool (b : bool)
| JNum (n : Z)
| JStr (s : jsstring)
| JArr (items : list JsVal)
| JObj (fields : list (jsstring * JsVal)).

(** Own-property lookup in an object's field list. *)
Fixpoint lookup (k : jsstring) (fields : list (jsstring * JsVal)) : JsVal :=
  match fields with
  | [] => JUndefined
  | (k', v) :: rest => if str_eqb k' k then v else lookup k rest
  end.

Definition isNullish (v : JsVal) : bool :=
  match v with JUndefined | JNull => true | _ => false end.

(** [v[k]] for the property names this program reads ([name], [rev],
    [path], [.tag], ...): an object answers from its fields, a primitive or
    an array has no such property, and [null]/[undefined] raise
    [TypeError] ([None]). *)
Definition getProp (v : JsVal) (k : jsstring) : option JsVal :=
  match v with
  | JUndefined | JNull => None
  | JObj fields => Some (lookup k fields)
  | _ => Some JUndefined
  end.

(** [v?.k]. *)
Definition getPropOpt (v : JsVal) (k : jsstring) : JsVal :=
  match getProp v k with Some x => x | None => JUndefined end.

Definition truthy (v : JsVal) : bool :=
  match v with
  | JUndefined | JNull => false
  | JBool b => b
  | JNum n => negb (n =? 0)
  | JStr s => negb (str_eqb s [])
  | JArr _ | JObj _ => true
  end.

(** [typeof v === 'object'] (which [null] and arrays also satisfy). *)
Definition typeofObject (v : JsVal) : bool :=
  match v with JNull | JArr _ | JObj _ => true | _ => false end.

(** [typeof v === 'string']. *)
Definition typeofString (v : JsVal) : bool :=
  match v with JStr _ => true | _ => false end.

(** [v === s] for a string literal [s]. *)
Definition strictEqStr (v : JsVal) (s : jsstring) : bool :=
  match v with JStr t => str_eqb t s | _ => false end.

(** ** [JSON.stringify] *)

Definition isHighSurrogate (c : Z) : bool := (55296 <=? c) && (c <=? 56319).
Definition isLowSurrogate (c : Z) : bool := (56320 <=? c) && (c <=? 57343).

(** [\uXXXX], as the serializer writes it: four lowercase hex digits. *)
Definition unicodeEscape (c : Z) : jsstring :=
  [backslash; 117;
   hexDigit (c / 4096 mod 16); hexDigit (c / 256 mod 16);
   hexDigit (c / 16 mod 16); hexDigit (c mod 16)].

(** The escape of one code unit that is not part of a surrogate pair. *)
Definition quoteUnit (c : Z) : jsstring :=
  if c =? 8 then [backslash; 98]
  else if c =? 9 then [backslash; 116]
  else if c =? 10 then [backslash; 110]
  else if c =? 12 then [backslash; 102]
  else if c =? 13 then [backslash; 114]
  else if c =? 34 then [backslash; 34]
  else if c =? backslash then [backslash; backslash]
  else if (c <? 32) || isHighSurrogate c || isLowSurrogate c
       then unicodeEscape c
  else [c].

(** The body of [QuoteJSONString]: a surrogate pair is copied, anything else
    goes through [quoteUnit]. *)
Fixpoint quoteBody (s : jsstring) : jsstring :=
  match s with
  | [] => []
  | c :: s' =>
      match s' with
      | d :: s'' =>
          if isHighSurrogate c && isLowSurrogate d
          then c :: d :: quoteBody s''
          else quoteUnit c ++ quoteBody s'
      | [] => quoteUnit c
      end
  end.

Definition quoteJSONString (s : jsstring) : jsstring :=
  34 :: quoteBody s ++ [34].

(** [JSON.stringify(v)] without indentation; [None] is [undefined].  A
    member whose value serializes to [undefined] is left out of an object and
    written [null] in an array. *)
Fixpoint stringify (v : JsVal) : option jsstring :=
  match v with
  | JUndefined => None
  | JNull => Some (js "null")
  | JBool true => Some (js "true")
  | JBool false => Some (js "false")
  | JNum n => Some (numberToString n)
  | JStr s => Some (quoteJSONString s)
  | JArr items =>
      let element x :=
        match stringify x with Some t => t | None => js "null" end in
      Some (js "[" ++ join [comma] (map element items) ++ js "]")
  | JObj fields =>
      let members :=
        (fix members (fs : list (jsstring * JsVal)) : list jsstring :=
           match fs with
           | [] => []
           | (k, x) :: fs' =>
               match stringify x with
               | Some t => (quoteJSONString k ++ js ":" ++ t) :: members fs'
               | None => members fs'
               end
           end) fields in
      Some (js "{" ++ join [comma] members ++ js "}")
  end.

(** [JSON.stringify] of a value known to be an object (never [undefined]). *)
Definition stringifyObject (v : JsVal) : jsstring :=
  match stringify v with Some t => t | None => js "undefined" end.

End Js.

Import Js.

(* ===================================================================== *)
(** * Collaborators                                                       *)
(* ===================================================================== *)

Module UrlFormat.

(** Modelled from the spec: [UrlFormat.fixSlashes] of
    [util/formatting/url-format], which is not among the embedded sources.
    The path resolver normalizes to a canonical slash form with no duplicate
    slashes: every run of two or more slashes becomes one slash. *)
Fixpoint fixSlashes (url : jsstring) : jsstring :=
  match url with
  | a :: rest =>
      match rest with
      | b :: _ =>
          if (a =? slash) && (b =? slash) then fixSlashes rest
          else a :: fixSlashes rest
      | [] => [a]
      end
  | [] => []
  end.

End UrlFormat.

(** A setting or configuration field of type [string | null | undefined].
    Only a non-empty string is truthy; the tests [if (rootFolder)] and
    [if (config.folder)] are written as a match on [Str (c :: r)]. *)
Inductive MaybeString : Type :=
| Undefined
| Null
| Str (s : jsstring).

(** [m === s] for a string [s]. *)
Definition isStr (m : MaybeString) (s : jsstring) : bool :=
  match m with
  | Str t => str_eqb t s
  | _ => false
  end.

(** The part of [AppSettings] this backend reads and writes. *)
Record AppSettings : Type := mkAppSettings {
  dropboxAppKey : MaybeString;
  dropboxSecret : MaybeString;
  dropboxFolder : MaybeString
}.

(** [const/cloud-storage-apps]: the two built-in Dropbox applications. *)
Record CloudApp : Type := mkCloudApp { id : jsstring; secret : jsstring }.
Record DropboxAppsT : Type := mkDropboxApps {
  AppFolder : CloudApp;
  FullDropbox : CloudApp
}.

(** The one [Locale] string that reaches a setting. *)
Record LocaleT : Type := mkLocale { dropboxAppKeyHint : jsstring }.

(** What can be thrown at this backend by the transport: an
    [HttpRequestError] carrying the HTTP status (and whatever other
    properties the transport put on it), or any other value. *)
Inductive Thrown : Type :=
| HttpRequestError (status : Z) (fields : list (jsstring * JsVal))
| ThrownValue (v : JsVal).

(** What this backend throws. *)
Inductive Exn : Type :=
| StorageFileNotFoundError
| Error (message : jsstring)
| TypeError
| Foreign (e : Thrown).

Inductive Outcome (A : Type) : Type :=
| Threw (e : Exn)
| Returned (a : A).
Arguments Threw {A} e.
Arguments Returned {A} a.

(** The body of a request: nothing, a string, or an [ArrayBuffer]. *)
Inductive Payload : Type :=
| NoData
| TextData (text : jsstring)
| BinaryData (bytes : list Z).

(** The argument of [StorageBase.xhr]. *)
Record XhrConfig : Type := mkXhrConfig {
  url : jsstring;
  method : jsstring;
  responseType : jsstring;
  headers : list (jsstring * jsstring);
  data : Payload;
  dataType : option jsstring;
  statuses : option (list Z)
}.

Record HttpResponse : Type := mkHttpResponse {
  resp_status : Z;
  resp_data : JsVal;
  resp_headers : list (jsstring * jsstring)
}.

(** The inherited [StorageBase] methods, as the answers they give during one
    operation of the backend. *)
Record StorageBaseT : Type := mkStorageBase {
  oauthAuthorize : Outcome unit;
  xhr : XhrConfig -> Thrown + HttpResponse;
  oauthRevokeToken : jsstring -> bool -> Outcome unit
}.

(** Calls made on collaborators, in the order they are made. *)
Inductive Call : Type :=
| CallOAuthAuthorize
| CallXhr (config : XhrConfig)
| CallOAuthRevokeToken (url : jsstring) (usePost : bool)
| CallBatchSet.

Record World : Type := mkWorld {
  settings : AppSettings;
  calls : list Call
}.

(** ** The monad of methods *)

Definition M (A : Type) : Type := World -> Outcome A * World.

Definition ret {A} (a : A) : M A := fun w => (Returned a, w).

Definition throw {A} (e : Exn) : M A := fun w => (Threw e, w).

Definition bind {A B} (m : M A) (k : A -> M B) : M B :=
  fun w =>
    match m w with
    | (Returned a, w') => k a w'
    | (Threw e, w') => (Threw e, w')
    end.

Declare Scope method_scope.
Delimit Scope method_scope with method.
Notation "x <- m ;; k" := (bind m (fun x => k))
  (at level 100, m at next level, right associativity) : method_scope.
Notation "m ;;; k" := (bind m (fun _ => k))
  (at level 100, right associativity) : method_scope.
Local Open Scope method_scope.

(** [promise.catch(noop)]: the call is made, its failure is dropped. *)
Definition catchNoop {A} (m : M A) : M unit :=
  fun w => let (_, w') := m w in (Returned tt, w').

Definition logCall (c : Call) : M unit :=
  fun w => (Returned tt, mkWorld (settings w) (calls w ++ [c])).

Definition getSettings : M AppSettings := fun w => (Returned (settings w), w).

(** An assignment to properties of [AppSettings]. *)
Definition assign (f : AppSettings -> AppSettings) : M unit :=
  fun w => (Returned tt, mkWorld (f (settings w)) (calls w)).

(** [AppSettings.batchSet(callback)]: one call, inside which the callback's
    assignments are made. *)
Definition batchSet (f : AppSettings -> AppSettings) : M unit :=
  logCall CallBatchSet ;;; assign f.

(** Lifting an answer of a collaborator into the monad. *)
Definition answer {A} (o : Outcome A) : M A := fun w => (o, w).

(** A property read that throws on [null] and [undefined]. *)
Definition readProp (v : JsVal) (k : jsstring) : M JsVal :=
  match getProp v k with
  | Some x => ret x
  | None => throw TypeError
  end.

(* ===================================================================== *)
(** * [StorageDropbox]                                                    *)
(* ===================================================================== *)

Module StorageDropbox.

(** [StorageFileStat], [StorageSaveResult], [StorageListItem] of
    [storage/types]; an optional property is an [option]. *)
Record StorageFileStat : Type := mkStat {
  stat_rev : option jsstring;
  stat_folder : option bool
}.

Record StorageSaveResult : Type := mkSaveResult {
  save_rev : option jsstring
}.

Record StorageListItem : Type := mkListItem {
  item_name : jsstring;
  item_path : jsstring;
  item_rev : option jsstring;
  item_dir : bool
}.

(** The fields [applyConfig] reads from its [Record<string, string | null>];
    an absent field is [Undefined]. *)
Record Config : Type := mkConfig {
  cfg_key : MaybeString;
  cfg_secret : MaybeString;
  cfg_folder : MaybeString
}.

(** The argument of [apiCall]. *)
Record ApiArgs : Type := mkApiArgs {
  api_method : jsstring;
  api_host : option jsstring;
  api_data : Payload;
  api_apiArg : option (list (jsstring * JsVal));
  api_statuses : option (list Z);
  api_responseType : option jsstring
}.

(** [x || fallback] for an optional string. *)
Definition orDefault (x : option jsstring) (fallback : jsstring) : jsstring :=
  match x with
  | Some (c :: s) => c :: s
  | _ => fallback
  end.

(** ** Path resolution *)

Definition toFullPath (s : AppSettings) (path : jsstring) : jsstring :=
  match dropboxFolder s with
  | Str (c :: r) =>
      UrlFormat.fixSlashes ([slash] ++ (c :: r) ++ [slash] ++ path)
  | _ => path
  end.

Definition toRelPath (toLowerCase : jsstring -> jsstring)
           (s : AppSettings) (path : jsstring) : jsstring :=
  match dropboxFolder s with
  | Str (c :: r) =>
      let rootFolder := c :: r in
      let ix := indexOf (toLowerCase path) (toLowerCase rootFolder) in
      let path :=
        if ix =? 0 then substr path (Js.length rootFolder)
        else if ix =? 1 then substr path (Js.length rootFolder + 1)
        else path in
      UrlFormat.fixSlashes ([slash] ++ path)
  | _ => path
  end.

(** [folder.replace(/\\/g, '/')]. *)
Definition backslashesToSlashes (folder : jsstring) : jsstring :=
  map (fun c => if c =? backslash then slash else c) folder.

Definition fixConfigFolder (folder : jsstring) : jsstring :=
  let folder := trim (backslashesToSlashes folder) in
  match folder with
  | c :: rest => if c =? slash then substr folder 1 else folder
  | [] => folder
  end.

Definition getPathForName (fileName : jsstring) : jsstring :=
  [slash] ++ fileName ++ js ".kdbx".

(** ** The header encoder *)

(** The replacement callback:
    ['\\u' + ('000' + c.charCodeAt(0).toString(16)).slice(-4)]. *)
Definition escapeUnit (c : Z) : jsstring :=
  js "\u" ++ slice (js "000" ++ toString16 c) (-4).

(** [json.replace(/[\u007f-\uffff]/g, callback)]: without the [u] flag the
    class matches one code unit at a time. *)
Definition encodeJsonHttpHeader (json : jsstring) : jsstring :=
  flat_map (fun c => if (127 <=? c) && (c <=? 65535) then escapeUnit c else [c])
           json.

Section WithCollaborators.

(** The engine's [String.prototype.toLowerCase]. *)
Variable toLowerCase : jsstring -> jsstring.

Variable apps : DropboxAppsT.
Variable locale : LocaleT.
Variable base : StorageBaseT.

(** ** Configuration *)

Definition applyConfig (config : Config) : M unit :=
  if isStr (cfg_key config) (id (AppFolder apps))
     || isStr (cfg_key config) (id (FullDropbox apps))
  then throw (Error (js "Bad key"))
  else
    let folder :=
      match cfg_folder config with
      | Str (c :: f) => Str (fixConfigFolder (c :: f))
      | other => other
      end in
    batchSet
      (fun _ => mkAppSettings (cfg_key config) (cfg_secret config) folder).

Definition logout : M unit :=
  logCall (CallOAuthRevokeToken
             (js "https://api.dropboxapi.com/2/auth/token/revoke") true) ;;;
  answer (oauthRevokeToken base
            (js "https://api.dropboxapi.com/2/auth/token/revoke") true).

Definition setAppKey (v : jsstring) : M unit :=
  assign (fun s => mkAppSettings (Str v) (dropboxSecret s) (dropboxFolder s)).

Definition setSecret (v : jsstring) : M unit :=
  assign (fun s => mkAppSettings (dropboxAppKey s) (Str v) (dropboxFolder s)).

Definition setFolder (v : jsstring) : M unit :=
  assign (fun s => mkAppSettings (dropboxAppKey s) (dropboxSecret s) (Str v)).

Definition applySetting (key value : jsstring) : M unit :=
  if str_eqb key (js "link") then
    if str_eqb value (js "app") then
      setAppKey (id (AppFolder apps)) ;;; catchNoop logout
    else if str_eqb value (js "full") then
      setAppKey (id (FullDropbox apps)) ;;; catchNoop logout
    else if str_eqb value (js "custom") then
      setAppKey (js "(" ++ dropboxAppKeyHint locale ++ js ")") ;;;
      catchNoop logout
    else ret tt
  else if str_eqb key (js "key") then
    setAppKey value ;;; catchNoop logout
  else if str_eqb key (js "secret") then
    setSecret value ;;; catchNoop logout
  else if str_eqb key (js "folder") then
    setFolder (fixConfigFolder value)
  else ret tt.

(** ** The API call executor *)

(** The request [apiCall] hands to [xhr]. *)
Definition apiRequest (args : ApiArgs) : XhrConfig :=
  let host := orDefault (api_host args) (js "api") in
  let headers :=
    match api_apiArg args with
    | Some arg =>
        [(js "Dropbox-API-Arg",
          encodeJsonHttpHeader (stringifyObject (JObj arg)))]
    | None => []
    end in
  let dataType :=
    match api_apiArg args, api_data args with
    | None, TextData _ => Some (js "application/json")
    | _, _ => None
    end in
  mkXhrConfig
    (js "https://" ++ host ++ js ".dropboxapi.com/2/" ++ api_method args)
    (js "POST")
    (orDefault (api_responseType args) (js "json"))
    headers
    (api_data args)
    dataType
    (api_statuses args).

(** [e instanceof HttpRequestError ? e.status : 0]. *)
Definition statusOf (e : Thrown) : Z :=
  match e with
  | HttpRequestError status _ => status
  | ThrownValue _ => 0
  end.

(** [e.path], read as the [catch] block reads it. *)
Definition thrownProp (e : Thrown) (k : jsstring) : M JsVal :=
  match e with
  | HttpRequestError _ fields => ret (lookup k fields)
  | ThrownValue v => readProp v k
  end.

(** The [catch] block of [apiCall]. *)
Definition apiCallCatch (e : Thrown) : M HttpResponse :=
  path <- thrownProp e (js "path") ;;
  let generic :=
    throw (Error (js "API error, status code "
                  ++ numberToString (statusOf e))) in
  if truthy path && typeofObject path then
    if strictEqStr (getPropOpt path (js ".tag")) (js "not_found")
    then throw StorageFileNotFoundError
    else generic
  else generic.

Definition apiCall (args : ApiArgs) : M HttpResponse :=
  logCall CallOAuthAuthorize ;;;
  (answer (oauthAuthorize base) ;;;
   (logCall (CallXhr (apiRequest args)) ;;;
    match xhr base (apiRequest args) with
    | inr response => ret response
    | inl e => apiCallCatch e
    end)).

(** [JSON.stringify({ path })]. *)
Definition pathBody (path : jsstring) : Payload :=
  TextData (stringifyObject (JObj [(js "path", JStr path)])).

(** ** The data operations *)

Definition statRequest (path : jsstring) : ApiArgs :=
  mkApiArgs (js "files/get_metadata") None (pathBody path) None None None.

Definition stat (path : jsstring) : M StorageFileStat :=
  s <- getSettings ;;
  let path := toFullPath s path in
  result <- apiCall (statRequest path) ;;
  let rec := resp_data result in
  tag <- readProp rec (js ".tag") ;;
  match tag with
  | JStr tag =>
      if str_eqb tag (js "file") then
        rev <- readProp rec (js "rev") ;;
        match rev with
        | JStr rev => ret (mkStat (Some rev) None)
        | _ => ret (mkStat None None)
        end
      else if str_eqb tag (js "folder") then
        ret (mkStat None (Some true))
      else throw (Error (js "Bad .tag: " ++ tag))
  | _ => throw (Error (js ".tag not found in response"))
  end.

(** [rev ? { '.tag': 'update', update: rev } : { '.tag': 'overwrite' }]. *)
Definition writeMode (rev : option jsstring) : JsVal :=
  match rev with
  | Some (c :: r) =>
      JObj [(js ".tag", JStr (js "update")); (js "update", JStr (c :: r))]
  | _ => JObj [(js ".tag", JStr (js "overwrite"))]
  end.

Definition saveRequest (path : jsstring) (data : list Z) (rev : option jsstring)
  : ApiArgs :=
  mkApiArgs (js "files/upload") (Some (js "content")) (BinaryData data)
            (Some [(js "path", JStr path); (js "mode", writeMode rev)])
            None (Some (js "json")).

(** [save(path, data, opts, rev)]; the source does not read [opts]. *)
Definition save (path : jsstring) (data : list Z) (rev : option jsstring)
  : M StorageSaveResult :=
  s <- getSettings ;;
  let path := toFullPath s path in
  result <- apiCall (saveRequest path data rev) ;;
  savedRev <- readProp (resp_data result) (js "rev") ;;
  match savedRev with
  | JStr r => ret (mkSaveResult (Some r))
  | _ => ret (mkSaveResult None)
  end.

Definition remove (path : jsstring) : M unit :=
  s <- getSettings ;;
  let path := toFullPath s path in
  apiCall (mkApiArgs (js "files/delete") None (pathBody path)
                     None None None) ;;;
  ret tt.

Definition mkdir (path : jsstring) : M unit :=
  s <- getSettings ;;
  let path := toFullPath s path in
  apiCall (mkApiArgs (js "files/create_folder") None (pathBody path)
                     None None None) ;;;
  ret tt.

Definition listRequest (s : AppSettings) (dir : option jsstring) : ApiArgs :=
  mkApiArgs (js "files/list_folder") None
    (TextData (stringifyObject
       (JObj [(js "path", JStr (toFullPath s (orDefault dir [])));
              (js "recursive", JBool false)])))
    None None None.

(** One turn of the [for ... of data.entries] loop: [None] is [continue],
    [Some item] is the [push]. *)
Definition listEntry (s : AppSettings) (ent : JsVal)
  : M (option StorageListItem) :=
  name <- readProp ent (js "name") ;;
  match name with
  | JStr name =>
      path_display <- readProp ent (js "path_display") ;;
      match path_display with
      | JStr path_display =>
          rev <- readProp ent (js "rev") ;;
          let push (rev : option jsstring) : M (option StorageListItem) :=
            tag <- readProp ent (js ".tag") ;;
            ret (Some (mkListItem name (toRelPath toLowerCase s path_display)
                                  rev
                                  (negb (strictEqStr tag (js "file"))))) in
          match rev with
          | JUndefined => push None
          | JStr rev => push (Some rev)
          | _ => ret None
          end
      | _ => ret None
      end
  | _ => ret None
  end.

Fixpoint listLoop (s : AppSettings) (entries : list JsVal)
                  (result : list StorageListItem) : M (list StorageListItem) :=
  match entries with
  | [] => ret result
  | ent :: rest =>
      pushed <- listEntry s ent ;;
      match pushed with
      | Some item => listLoop s rest (result ++ [item])
      | None => listLoop s rest result
      end
  end.

Definition list (dir : option jsstring) : M (Datatypes.list StorageListItem) :=
  s <- getSettings ;;
  response <- apiCall (listRequest s dir) ;;
  match getPropOpt (resp_data response) (js "entries") with
  | JArr entries => listLoop s entries []
  | _ => throw (Error (js "Empty response"))
  end.

End WithCollaborators.

(** ** Credentials and the configuration surface *)

(** [Features], as far as this backend reads it. *)
Record FeaturesT : Type := mkFeatures { isSelfHosted : bool }.

(** The [Locale] strings that label the configuration fields. *)
Record LabelsT : Type := mkLabels {
  dropboxAppKey_label : jsstring;
  dropboxAppKeyDesc : jsstring;
  dropboxAppSecret_label : jsstring;
  dropboxAppSecretDesc : jsstring;
  dropboxFolder_label : jsstring;
  dropboxFolderDesc : jsstring;
  dropboxFolderPlaceholder : jsstring;
  dropboxFolderSettingsDesc : jsstring;
  dropboxSetupDesc : jsstring;
  dropboxLink : jsstring;
  dropboxLinkApp : jsstring;
  dropboxLinkFull : jsstring;
  dropboxLinkCustom : jsstring
}.

Inductive FieldType : Type := TypeText | TypePassword | TypeSelect.

(** A [StorageConfigField]: the properties the three field kinds have
    between them, an absent one being [None]. *)
Record ConfigField : Type := mkField {
  field_id : jsstring;
  field_title : jsstring;
  field_desc : option jsstring;
  field_type : FieldType;
  field_required : option bool;
  field_pattern : option jsstring;
  field_placeholder : option jsstring;
  field_value : option jsstring;
  field_options : option (Datatypes.list (jsstring * jsstring))
}.

Section Credentials.

Variable apps : DropboxAppsT.
Variable features : FeaturesT.
Variable labels : LabelsT.

(** [AppSettings.dropboxAppKey || DropboxApps.AppFolder.id]. *)
Definition getKey (s : AppSettings) : jsstring :=
  match dropboxAppKey s with
  | Str (c :: k) => c :: k
  | _ => id (AppFolder apps)
  end.

(** [getSecret]: [string | null]. *)
Definition getSecret (s : AppSettings) : MaybeString :=
  let key := getKey s in
  if str_eqb key (id (AppFolder apps)) then Str (secret (AppFolder apps))
  else if str_eqb key (id (FullDropbox apps)) then Str (secret (FullDropbox apps))
  else match dropboxSecret s with
       | Undefined | Null => Null
       | Str v => Str v
       end.

Definition canUseBuiltInKeys : bool := negb (isSelfHosted features).

(** [isValidKey], as the truth value its callers test. *)
Definition isValidKey (s : AppSettings) : bool :=
  let key := getKey s in
  let isBuiltIn :=
    str_eqb key (id (AppFolder apps)) || str_eqb key (id (FullDropbox apps)) in
  negb (str_eqb key [])
  && (indexOf key (js " ") <? 0)
  && (negb isBuiltIn || canUseBuiltInKeys).

(** [!this.isValidKey() || !this.getSecret()]. *)
Definition needShowOpenConfig (s : AppSettings) : bool :=
  negb (isValidKey s)
  || negb match getSecret s with
          | Str (_ :: _) => true
          | _ => false
          end.

Definition openKeyField : ConfigField :=
  mkField (js "key") (dropboxAppKey_label labels)
          (Some (dropboxAppKeyDesc labels)) TypeText (Some true)
          (Some (js "\w+")) None None None.

Definition openSecretField : ConfigField :=
  mkField (js "secret") (dropboxAppSecret_label labels)
          (Some (dropboxAppSecretDesc labels)) TypePassword (Some true)
          (Some (js "\w+")) None None None.

Definition openFolderField : ConfigField :=
  mkField (js "folder") (dropboxFolder_label labels)
          (Some (dropboxFolderDesc labels)) TypeText None None
          (Some (dropboxFolderPlaceholder labels)) None None.

(** [getOpenConfig]: the description and the fields. *)
Definition getOpenConfig : jsstring * Datatypes.list ConfigField :=
  (dropboxSetupDesc labels, [openKeyField; openSecretField; openFolderField]).

(** [x ?? ''] for a setting. *)
Definition orEmpty (m : MaybeString) : jsstring :=
  match m with
  | Str v => v
  | _ => []
  end.

Definition linkField (value : jsstring) : ConfigField :=
  mkField (js "link") (dropboxLink labels) None TypeSelect None None None
          (Some value)
          (Some [(js "app", dropboxLinkApp labels);
                 (js "full", dropboxLinkFull labels);
                 (js "custom", dropboxLinkCustom labels)]).

Definition keyField (appKey : jsstring) : ConfigField :=
  mkField (js "key") (dropboxAppKey_label labels)
          (Some (dropboxAppKeyDesc labels)) TypeText (Some true)
          (Some (js "\w+")) None (Some appKey) None.

Definition secretField (s : AppSettings) : ConfigField :=
  mkField (js "secret") (dropboxAppSecret_label labels)
          (Some (dropboxAppSecretDesc labels)) TypePassword (Some true)
          (Some (js "\w+")) None (Some (orEmpty (dropboxSecret s))) None.

Definition folderField (s : AppSettings) : ConfigField :=
  mkField (js "folder") (dropboxFolder_label labels)
          (Some (dropboxFolderSettingsDesc labels)) TypeText None None None
          (Some (orEmpty (dropboxFolder s))) None.

(** [getSettingsConfig].  The source pushes the link field and sets its
    value afterwards; the array holds that same object, so the field is
    listed with the value it ends up with. *)
Definition getSettingsConfig (s : AppSettings) : Datatypes.list ConfigField :=
  let appKey := getKey s in
  if canUseBuiltInKeys then
    if str_eqb appKey (id (AppFolder apps)) then
      [linkField (js "app")]
    else if str_eqb appKey (id (FullDropbox apps)) then
      [linkField (js "full"); folderField s]
    else
      [linkField (js "custom"); keyField appKey; secretField s; folderField s]
  else
    [keyField appKey; secretField s; folderField s].

End Credentials.

End StorageDropbox.

(* ===================================================================== *)
(** * [Workspace]: the tag list                                           *)
(* ===================================================================== *)

(** The order of [Array.prototype.sort()] without a comparator: strings
    compared code unit by code unit, a proper prefix first. *)
Module JsStringOrder <: TotalLeBool.

Definition t : Type := jsstring.

Definition leb (a b : jsstring) : bool :=
  match list_compare Z.compare a b with
  | Gt => false
  | _ => true
  end.

Lemma leb_total : forall a b, leb a b = true \/ leb b a = true.
Proof.
  intros a b. unfold leb.
  rewrite (list_compare_antisym Z.compare Z.compare_eq_iff a b Z.compare_antisym).
  destruct (list_compare Z.compare a b); simpl; auto.
Qed.

End JsStringOrder.

(** [Array.prototype.sort()], as the merge sort of the Standard Library
    over that order.  The order is total and only identical strings compare
    equal, so every correct sorting algorithm returns this list. *)
Module TagSort := Sort JsStringOrder.

Module Workspace.

Section WithEngine.

(** The engine's [String.prototype.toLowerCase]. *)
Variable toLowerCase : jsstring -> jsstring.

(** An entry, as far as its tags go: [entry.tags] may be missing. *)
Record Entry : Type := mkEntry { entry_tags : option (list jsstring) }.

(** A file, as [updateTags] sees it: [file.entriesMatching(new Filter())]. *)
Record File : Type := mkFile { entriesMatching : list Entry }.

Record MenuItem : Type := mkMenuItem {
  title : jsstring;
  icon : jsstring;
  filterKey : jsstring;
  filterValue : jsstring;
  editable : bool
}.

(** Calls made on [menu.tagsSection]. *)
Inductive MenuCall : Type :=
| SetScrollable (b : bool)
| AddItem (item : MenuItem)
| RemoveAllItems.

(** The workspace, as far as tags go: the public [tags] array and the calls
    received so far by the tags section of the menu. *)
Record WorkspaceT : Type := mkWorkspace {
  tags : list jsstring;
  tagsSection : list MenuCall
}.

(** [new Workspace()]. *)
Definition initial : WorkspaceT := mkWorkspace [] [].

(** A [Set<string>], in insertion order. *)
Definition setHas (s : list jsstring) (x : jsstring) : bool :=
  existsb (str_eqb x) s.

Definition setAdd (s : list jsstring) (x : jsstring) : list jsstring :=
  if setHas s x then s else s ++ [x].

Definition getTags (file : File) : list jsstring :=
  fold_left
    (fun tags entry =>
       match entry_tags entry with
       | Some entryTags => fold_left setAdd entryTags tags
       | None => tags
       end)
    (entriesMatching file) [].

(** The body of the inner loop of [updateTags], on the pair
    [(newTags, tagSetLower)]. *)
Definition visitTag (acc : list jsstring * list jsstring) (tag : jsstring)
  : list jsstring * list jsstring :=
  let (newTags, tagSetLower) := acc in
  let tagLower := toLowerCase tag in
  if setHas tagSetLower tagLower then acc
  else (newTags ++ [tag], setAdd tagSetLower tagLower).

(** [newTags], after the two loops and the [sort]. *)
Definition collectTags (files : list File) : list jsstring :=
  fst (fold_left (fun acc file => fold_left visitTag (getTags file) acc)
                 files ([], [])).

Definition computeTags (files : list File) : list jsstring :=
  TagSort.sort (collectTags files).

Definition tagItem (tag : jsstring) : MenuItem :=
  mkMenuItem tag (js "tag") (js "tag") tag true.

Definition tagsChanged (w : WorkspaceT) : WorkspaceT :=
  match tags w with
  | _ :: _ =>
      mkWorkspace (tags w)
        (tagsSection w ++ [SetScrollable true]
                     ++ map (fun tag => AddItem (tagItem tag)) (tags w))
  | [] =>
      mkWorkspace (tags w)
        (tagsSection w ++ [SetScrollable false; RemoveAllItems])
  end.

(** [updateTags], given [FileManager.files]. *)
Definition updateTags (files : list File) (w : WorkspaceT) : WorkspaceT :=
  let newTags := computeTags files in
  if negb (str_eqb (join [comma] (tags w)) (join [comma] newTags))
  then tagsChanged (mkWorkspace newTags (tagsSection w))
  else w.



(** ** The filter *)

(** [filter.advanced], as far as it is read. *)
Record AdvancedFilter : Type := mkAdvanced { exact : option bool }.

(** The properties of a [Filter] that [prepareFilter] and [setFilter] read
    and write; an optional one that is absent is [None]. *)
Record FilterT : Type := mkFilter {
  text : option jsstring;
  tag : option jsstring;
  advanced : option AdvancedFilter;
  textLower : jsstring;
  textParts : option (list jsstring);
  textLowerParts : option (list jsstring);
  tagLower : jsstring;
  subGroups : bool
}.

(** [s.split(/\s+/)]: the pieces between the runs of white space, empty
    pieces at the ends included.  [current] is the piece being read and
    [inGap] tells that the last unit read was white space. *)
Fixpoint splitFrom (s current : jsstring) (inGap : bool) : list jsstring :=
  match s with
  | [] => [current]
  | c :: rest =>
      if isWhiteSpace c then
        if inGap then splitFrom rest current true
        else current :: splitFrom rest [] true
      else splitFrom rest (current ++ [c]) false
  end.

Definition splitWhiteSpace (s : jsstring) : list jsstring :=
  splitFrom s [] false.

(** [parts.filter((s) => s)]. *)
Definition nonEmptyParts (parts : list jsstring) : list jsstring :=
  filter (fun p => negb (str_eqb p [])) parts.

(** [filter.advanced?.exact], as a truth value. *)
Definition isExact (f : FilterT) : bool :=
  match advanced f with
  | Some a => match exact a with Some b => b | None => false end
  | None => false
  end.

(** [x ? x.toLowerCase() : ''] for an optional string. *)
Definition lowerOrEmpty (x : option jsstring) : jsstring :=
  match x with
  | Some (c :: s) => toLowerCase (c :: s)
  | _ => []
  end.

Definition prepareFilter (f : FilterT) : FilterT :=
  let textLower := lowerOrEmpty (text f) in
  let noParts :=
    mkFilter (text f) (tag f) (advanced f) textLower None None
             (lowerOrEmpty (tag f)) (subGroups f) in
  match text f with
  | Some (c :: s) =>
      if negb (isExact f) then
        match nonEmptyParts (splitWhiteSpace (c :: s)) with
        | [] => noParts
        | p :: parts =>
            mkFilter (text f) (tag f) (advanced f) textLower
                     (Some (p :: parts))
                     (Some (nonEmptyParts (splitWhiteSpace textLower)))
                     (lowerOrEmpty (tag f)) (subGroups f)
        end
      else noParts
  | _ => noParts
  end.

(** [setFilter], given [AppSettings.expandGroups]: the filter the workspace
    holds afterwards. *)
Definition setFilter (expandGroups : bool) (f : FilterT) : FilterT :=
  let f := prepareFilter f in
  mkFilter (text f) (tag f) (advanced f) (textLower f) (textParts f)
           (textLowerParts f) (tagLower f) expandGroups.

(** ** The file and group sections of the menu *)

(** An item of the groups or files section: a group of a file, or the item
    [filesChanged] makes for a file.  [item_file] is the file object the
    item belongs to, if it has one; a file object is known by its
    identity. *)
Record SectionItem : Type := mkSectionItem {
  item_icon : jsstring;
  item_title : jsstring;
  item_page : jsstring;
  item_file : option nat
}.

(** An open file, as [filesChanged] sees it: its identity, its name, its
    groups, and its entries for the tag pass. *)
Record OpenFile : Type := mkOpenFile {
  file_id : nat;
  file_name : jsstring;
  file_groups : list SectionItem;
  file_entries : File
}.

Record MenuSections : Type := mkMenuSections {
  groupsSection : list SectionItem;
  filesSection : list SectionItem
}.

(** [items.find((it) => it.file === file)]. *)
Definition findItem (items : list SectionItem) (file : OpenFile)
  : option SectionItem :=
  find (fun it => match item_file it with
                  | Some i => Nat.eqb i (file_id file)
                  | None => false
                  end) items.

(** One turn of the loop of [filesChanged], on the two lists being built. *)
Definition visitFile (menu : MenuSections)
           (acc : list SectionItem * list SectionItem) (file : OpenFile)
  : list SectionItem * list SectionItem :=
  let (groupsSectionItems, filesSectionItems) := acc in
  let groupsSectionItems :=
    match findItem (groupsSection menu) file with
    | Some groupsItem => groupsSectionItems ++ [groupsItem]
    | None =>
        match file_groups file with
        | g :: _ => groupsSectionItems ++ [g]
        | [] => groupsSectionItems
        end
    end in
  let filesSectionItems :=
    match findItem (filesSection menu) file with
    | Some filesItem => filesSectionItems ++ [filesItem]
    | None =>
        filesSectionItems
          ++ [mkSectionItem (js "lock") (file_name file) (js "file")
                            (Some (file_id file))]
    end in
  (groupsSectionItems, filesSectionItems).

(** [filesChanged], given [FileManager.files]: the tag update, then the two
    sections rebuilt from the files. *)
Definition filesChanged (files : list OpenFile)
           (state : WorkspaceT * MenuSections) : WorkspaceT * MenuSections :=
  let (w, menu) := state in
  let w := updateTags (map file_entries files) w in
  let (groupsSectionItems, filesSectionItems) :=
    fold_left (visitFile menu) files ([], []) in
  (w, mkMenuSections groupsSectionItems filesSectionItems).

End WithEngine.

End Workspace.

(* ===================================================================== *)
(** * [OpenView]: applying a storage configuration                        *)
(* ===================================================================== *)

Module OpenView.

(** The configuration the open-config view hands over: the storage it is
    for, the path, and the remaining fields ([omit(config, ['path',
    'storage'])]). *)
Record OpenConfig : Type := mkOpenConfig {
  config_storage : jsstring;
  config_path : MaybeString;
  config_opts : list (jsstring * MaybeString)
}.

(** The request bound into a completion callback. *)
Record Request : Type := mkRequest {
  req_waitId : Z;
  req_storage : jsstring;
  req_path : MaybeString;
  req_opts : list (jsstring * MaybeString)
}.

(** What the view does to its collaborators, in order. *)
Inductive Effect : Type :=
| ConfigViewRemove
| ConfigViewCreate (storage : jsstring)
| ConfigViewRender
| ConfigViewSetDisabled (disabled : bool)
| ConfigViewSetError (err : JsVal)
| AddClass (selector cls : jsstring)
| RemoveClass (selector cls : jsstring)
| FocusInput
| StorageApplyConfig (req : Request)
| StorageStat (req : Request)
| SetParams (req : Request)
| SetParamsRev (rev : JsVal)
| DisplayOpenFile
| ToggleClass (selector cls : jsstring) (on : bool).

(** The view, as far as these methods go: [busy], [storageWaitId] ([None]
    is [null]), whether [views.openConfig] is there, and the effects so
    far. *)
Record View : Type := mkView {
  busy : bool;
  storageWaitId : option Z;
  openConfig : bool;
  effects : list Effect
}.

Definition emit (v : View) (es : list Effect) : View :=
  mkView (busy v) (storageWaitId v) (openConfig v) (effects v ++ es).

(** [showConfig(storage)], given [storage.name]. *)
Definition showConfig (name : jsstring) (v : View) : View :=
  if busy v then v
  else
    let v := if openConfig v then emit v [ConfigViewRemove] else v in
    emit (mkView (busy v) (storageWaitId v) true (effects v))
         [ConfigViewCreate name; ConfigViewRender;
          AddClass (js ".open__pass-area") (js "hide");
          AddClass (js ".open__icons--lower") (js "hide")].

Definition closeConfig (v : View) : View :=
  let v := if busy v then mkView false None (openConfig v) (effects v)
           else v in
  let v := if openConfig v
           then mkView (busy v) (storageWaitId v) false
                       (effects v ++ [ConfigViewRemove])
           else v in
  emit v [RemoveClass (js ".open__pass-area") (js "hide");
          AddClass (js ".open__config") (js "hide");
          FocusInput].

Section WithStorages.

(** [Storage[name]]: [None] when there is no such storage, otherwise
    whether the storage has an [applyConfig] method. *)
Variable storages : jsstring -> option bool.

(** [applyConfig(config)], given the number [Math.random()] returns.  A
    method called on [undefined] raises [TypeError]; what was written before
    stays written. *)
Definition applyConfig (random : Z) (config : option OpenConfig) (v : View)
  : Outcome unit * View :=
  match config with
  | None => (Returned tt, v)
  | Some config =>
      if busy v then (Returned tt, v)
      else
        let v := mkView true (storageWaitId v) (openConfig v) (effects v) in
        if negb (openConfig v) then (Threw TypeError, v)
        else
          let v := emit v [ConfigViewSetDisabled true] in
          let v := mkView (busy v) (Some random) (openConfig v) (effects v) in
          let req := mkRequest random (config_storage config)
                               (config_path config) (config_opts config) in
          match storages (config_storage config) with
          | None => (Threw TypeError, v)
          | Some true => (Returned tt, emit v [StorageApplyConfig req])
          | Some false => (Returned tt, emit v [StorageStat req])
          end
  end.

End WithStorages.

(** [storageApplyConfigComplete(req, err)]; [err] is tested for truth. *)
Definition storageApplyConfigComplete (req : Request) (err : JsVal) (v : View)
  : Outcome unit * View :=
  match storageWaitId v with
  | Some current =>
      if current =? req_waitId req then
        let v := mkView false None (openConfig v) (effects v) in
        if truthy err then
          if openConfig v
          then (Returned tt,
                emit v [ConfigViewSetDisabled false; ConfigViewSetError err])
          else (Threw TypeError, v)
        else (Returned tt, closeConfig v)
      else (Returned tt, v)
  | None => (Returned tt, v)
  end.

(** [storageStatComplete(req, err, stat)].  On success the configuration is
    closed, the parameters of the file to open are set from the request, and
    the open form is shown again; reading [stat.rev] raises [TypeError] when
    [stat] is [null] or [undefined]. *)
Definition storageStatComplete (req : Request) (err stat : JsVal) (v : View)
  : Outcome unit * View :=
  match storageWaitId v with
  | Some current =>
      if current =? req_waitId req then
        let v := mkView false None (openConfig v) (effects v) in
        if truthy err then
          if openConfig v
          then (Returned tt,
                emit v [ConfigViewSetDisabled false; ConfigViewSetError err])
          else (Threw TypeError, v)
        else
          let v := emit (closeConfig v) [SetParams req] in
          match getProp stat (js "rev") with
          | None => (Threw TypeError, v)
          | Some rev =>
              (Returned tt,
               emit v [SetParamsRev rev; DisplayOpenFile;
                       ToggleClass (js ".open__pass-enter-btn")
                                   (js "open__pass-enter-btn--touch-id")
                                   false])
          end
      else (Returned tt, v)
  | None => (Returned tt, v)
  end.

(** A view on which nothing has happened. *)
Definition initial : View := mkView false None false [].

End OpenView.

(* ===================================================================== *)
(** * Vocabulary of the specification                                     *)
(* ===================================================================== *)

Module Spec.

(** ** Paths *)

(** The canonical slash form of a logical path: a leading slash and no
    duplicate slashes. *)
Definition normalize (p : jsstring) : jsstring :=
  UrlFormat.fixSlashes ([slash] ++ p).

(** No two adjacent slashes. *)
Fixpoint noDoubleSlash (s : jsstring) : bool :=
  match s with
  | a :: rest =>
      match rest with
      | b :: _ => negb ((a =? slash) && (b =? slash)) && noDoubleSlash rest
      | [] => true
      end
  | [] => true
  end.

(** Settings whose root folder is [r]. *)
Definition withFolder (r : jsstring) : AppSettings :=
  mkAppSettings Undefined Undefined (Str r).

(** ** The embedded-metadata header *)

(** Printable ASCII: space to tilde. *)
Definition isPrintableAscii (c : Z) : Prop := 32 <= c <= 126.

(** Code units from space upward: what a serialized value consists of. *)
Definition isVisibleUnit (c : Z) : Prop := 32 <= c <= 65535.

(** The escaping the specification asks of the embedded-metadata header:
    a code unit at or above [0x7f] becomes [\uXXXX] with four lowercase hex
    digits, any other is kept. *)
Definition escapeNonAscii (json : jsstring) : jsstring :=
  flat_map (fun c => if 127 <=? c then unicodeEscape c else [c]) json.

(** A value all of whose strings and keys are sequences of code units. *)
Fixpoint wellFormed (v : JsVal) : Prop :=
  match v with
  | JStr s => Forall isCodeUnit s
  | JArr items =>
      (fix all (l : list JsVal) : Prop :=
         match l with
         | [] => True
         | x :: l' => wellFormed x /\ all l'
         end) items
  | JObj fields =>
      (fix all (l : list (jsstring * JsVal)) : Prop :=
         match l with
         | [] => True
         | (k, x) :: l' => Forall isCodeUnit k /\ wellFormed x /\ all l'
         end) fields
  | _ => True
  end.

(** ** Worlds and requests *)

(** A world in which nothing is configured and nothing has been called. *)
Definition emptyWorld : World :=
  mkWorld (mkAppSettings Undefined Undefined Undefined) [].

(** The world after the two calls every API call makes. *)
Definition called (args : StorageDropbox.ApiArgs) (w : World) : World :=
  mkWorld (settings w)
          ((calls w ++ [CallOAuthAuthorize])
             ++ [CallXhr (StorageDropbox.apiRequest args)]).

(** The arguments [save], [stat] and [list] hand to the executor in a given
    world. *)
Definition uploadArgs (w : World) (path : jsstring) (data : list Z)
           (rev : option jsstring) : StorageDropbox.ApiArgs :=
  StorageDropbox.saveRequest (StorageDropbox.toFullPath (settings w) path)
                             data rev.

Definition metadataArgs (w : World) (path : jsstring) : StorageDropbox.ApiArgs :=
  StorageDropbox.statRequest (StorageDropbox.toFullPath (settings w) path).

Definition listArgs (w : World) (dir : option jsstring) : StorageDropbox.ApiArgs :=
  StorageDropbox.listRequest (settings w) dir.

(** ** Errors of the transport *)

(** What the [catch] block of the executor inspects: the thrown value with
    its own properties. *)
Definition errorBody (e : Thrown) : JsVal :=
  match e with
  | HttpRequestError _ fields => JObj fields
  | ThrownValue v => v
  end.

(** The error body contains a path object whose [.tag] is ["not_found"]. *)
Definition notFoundShaped (e : Thrown) : Prop :=
  exists pathFields,
    getProp (errorBody e) (js "path") = Some (JObj pathFields)
    /\ lookup (js ".tag") pathFields = JStr (js "not_found").

(** Three refusals of Dropbox, each with status 409, as the [catch] block
    receives them: a path that does not exist, an upload in mode [update]
    whose revision is not the current one, and an upload to a full
    account. *)
Definition notFoundError : Thrown :=
  HttpRequestError 409
    [(js ".tag", JStr (js "path"));
     (js "path", JObj [(js ".tag", JStr (js "not_found"))])].

Definition conflictError : Thrown :=
  HttpRequestError 409
    [(js ".tag", JStr (js "path"));
     (js "reason",
      JObj [(js ".tag", JStr (js "conflict"));
            (js "conflict", JObj [(js ".tag", JStr (js "file"))])])].

Definition insufficientSpaceError : Thrown :=
  HttpRequestError 409
    [(js ".tag", JStr (js "path"));
     (js "reason", JObj [(js ".tag", JStr (js "insufficient_space"))])].

(** ** Remotes *)

(** A remote that refuses every request with the given error. *)
Definition refusing (e : Thrown) : StorageBaseT :=
  mkStorageBase (Returned tt) (fun _ => inl e) (fun _ _ => Returned tt).

(** A remote that answers every request with the given body. *)
Definition answering (body : JsVal) : StorageBaseT :=
  mkStorageBase (Returned tt) (fun _ => inr (mkHttpResponse 200 body []))
                (fun _ _ => Returned tt).

(** A remote holding one file at revision [current]: it accepts an
    overwrite and an update from [current], answering with the revision
    [fresh], and refuses any other upload as a conflict. *)
Definition remoteAt (path current fresh : jsstring) : StorageBaseT :=
  mkStorageBase (Returned tt)
    (fun request =>
       let sent := StorageDropbox.apiRequest in
       let same (rev : option jsstring) :=
         match headers request,
               headers (sent (StorageDropbox.saveRequest path [] rev)) with
         | [(_, a)], [(_, b)] => str_eqb a b
         | _, _ => false
         end in
       if same None || same (Some current)
       then inr (mkHttpResponse 200 (JObj [(js "rev", JStr fresh)]) [])
       else inl conflictError)
    (fun _ _ => Returned tt).

(** A remote whose token revocation fails. *)
Definition failingRevoke : StorageBaseT :=
  mkStorageBase (Returned tt) (fun _ => inl (ThrownValue JNull))
                (fun _ _ => Threw (Error (js "Network error"))).

(** ** Uploads *)

(** The upload modes the specification names: a conditional update carrying
    the revision, and an unconditional overwrite. *)
Definition updateMode (rev : jsstring) : JsVal :=
  JObj [(js ".tag", JStr (js "update")); (js "update", JStr rev)].

Definition overwriteMode : JsVal :=
  JObj [(js ".tag", JStr (js "overwrite"))].

(** ** Listings *)

Definition stringOf (v : JsVal) : jsstring :=
  match v with JStr s => s | _ => [] end.

Definition optStringOf (v : JsVal) : option jsstring :=
  match v with JStr s => Some s | _ => None end.

(** The properties an entry answers with: those of an object, none for a
    primitive. *)
Definition entryFields (ent : JsVal) : list (jsstring * JsVal) :=
  match ent with JObj fields => fields | _ => [] end.

(** The required fields are there: string name, string path_display, rev
    either absent or a string. *)
Definition entryOk (fields : list (jsstring * JsVal)) : bool :=
  typeofString (lookup (js "name") fields)
  && typeofString (lookup (js "path_display") fields)
  && match lookup (js "rev") fields with
     | JUndefined | JStr _ => true
     | _ => false
     end.

(** A well-formed entry of a listing, and one that lacks a required field. *)
Definition wellFormedEntry (ent : JsVal) : Prop :=
  isNullish ent = false /\ entryOk (entryFields ent) = true.

Definition malformedEntry (ent : JsVal) : Prop :=
  entryOk (entryFields ent) = false.

(** The [StorageListItem] of a well-formed entry: its name, its path made
    logical, its rev, and [dir] true exactly when [.tag] is not ["file"]. *)
Definition entryItem (toLowerCase : jsstring -> jsstring)
           (s : AppSettings) (fields : list (jsstring * JsVal))
  : StorageDropbox.StorageListItem :=
  StorageDropbox.mkListItem
    (stringOf (lookup (js "name") fields))
    (StorageDropbox.toRelPath toLowerCase s
                              (stringOf (lookup (js "path_display") fields)))
    (optStringOf (lookup (js "rev") fields))
    (negb (strictEqStr (lookup (js ".tag") fields) (js "file"))).

(** A listing with one well-formed entry and one without [path_display]. *)
Definition goodEntry : JsVal :=
  JObj [(js ".tag", JStr (js "file")); (js "name", JStr (js "db.kdbx"));
        (js "path_display", JStr (js "/db.kdbx")); (js "rev", JStr (js "abc"))].

Definition badEntry : JsVal :=
  JObj [(js ".tag", JStr (js "folder")); (js "name", JStr (js "sub"))].

Definition sampleListing : JsVal :=
  JObj [(js "entries", JArr [goodEntry; badEntry])].

(** ** Configuration *)

(** The sanitized form of a configured folder: backslashes converted to
    slashes, surrounding white space trimmed, a leading slash stripped. *)
Definition stripLeadingSlash (folder : jsstring) : jsstring :=
  match folder with
  | c :: rest => if c =? slash then rest else folder
  | [] => []
  end.

Definition sanitizeFolder (folder : jsstring) : jsstring :=
  stripLeadingSlash
    (trim (map (fun c => if c =? backslash then slash else c) folder)).

Definition sanitizeField (folder : MaybeString) : MaybeString :=
  match folder with
  | Str f => Str (sanitizeFolder f)
  | other => other
  end.

(** The key is one of the two built-in application identifiers. *)
Definition isBuiltInKey (apps : DropboxAppsT) (key : MaybeString) : Prop :=
  key = Str (id (AppFolder apps)) \/ key = Str (id (FullDropbox apps)).

(** The call by which [logout] revokes the token. *)
Definition revokeCall : Call :=
  CallOAuthRevokeToken (js "https://api.dropboxapi.com/2/auth/token/revoke")
                       true.

(** Settings with one field replaced. *)
Definition withAppKey (s : AppSettings) (v : jsstring) : AppSettings :=
  mkAppSettings (Str v) (dropboxSecret s) (dropboxFolder s).

Definition withSecret (s : AppSettings) (v : jsstring) : AppSettings :=
  mkAppSettings (dropboxAppKey s) (Str v) (dropboxFolder s).

Definition withFolderValue (s : AppSettings) (v : jsstring) : AppSettings :=
  mkAppSettings (dropboxAppKey s) (dropboxSecret s) (Str v).

(** A table of built-in applications and a locale to run examples with. *)
Definition sampleApps : DropboxAppsT :=
  mkDropboxApps (mkCloudApp (js "appfolderkey") (js "s1"))
                (mkCloudApp (js "fulldropboxkey") (js "s2")).

Definition sampleLocale : LocaleT := mkLocale (js "your app key").

(** ** Tags *)




(** The tags-changed notification fired between two workspaces: the tags
    section of the menu received calls. *)
Definition notified (w w' : Workspace.WorkspaceT) : Prop :=
  Workspace.tagsSection w' <> Workspace.tagsSection w.

(** A conversion to run examples with: the letters A-Z and the capital
    letters of Latin-1 (U+00C0 to U+00DE, the multiplication sign apart),
    each moved to its small letter as the engine moves it. *)
Definition latin1Lower (s : jsstring) : jsstring :=
  map (fun c => if (192 <=? c) && (c <=? 222) && negb (c =? 215)
                then c + 32 else lowerUnit c) s.


(** Two files whose entries spell one tag in two ways. *)
Definition sampleFiles : list Workspace.File :=
  [Workspace.mkFile
     [Workspace.mkEntry (Some [js "Work"; js "home"]); Workspace.mkEntry None];
   Workspace.mkFile
     [Workspace.mkEntry (Some [js "work"; js "Bank"; js "home"])]].

(** ** Further vocabulary: the data operations *)

(** The world after an authorization that was attempted and nothing else. *)
Definition authorizing (w : World) : World :=
  mkWorld (settings w) (calls w ++ [CallOAuthAuthorize]).

(** The arguments [remove] and [mkdir] hand to the executor. *)
Definition removeArgs (w : World) (path : jsstring) : StorageDropbox.ApiArgs :=
  StorageDropbox.mkApiArgs
    (js "files/delete") None
    (StorageDropbox.pathBody (StorageDropbox.toFullPath (settings w) path))
    None None None.

Definition mkdirArgs (w : World) (path : jsstring) : StorageDropbox.ApiArgs :=
  StorageDropbox.mkApiArgs
    (js "files/create_folder") None
    (StorageDropbox.pathBody (StorageDropbox.toFullPath (settings w) path))
    None None None.

(** A remote on which authorization fails. *)
Definition unauthorized (e : Exn) : StorageBaseT :=
  mkStorageBase (Threw e) (fun _ => inl (ThrownValue JNull))
                (fun _ _ => Returned tt).

(** ** Further vocabulary: paths, credentials *)

(** The first code unit of a string is a slash. *)
Definition startsWithSlash (s : jsstring) : bool :=
  match s with
  | c :: _ => c =? slash
  | [] => false
  end.

(** A key the backend accepts as entered by the user: not empty and without
    a space. *)
Definition plainKey (k : jsstring) : Prop :=
  k <> [] /\ indexOf k (js " ") < 0.

(** Settings holding a custom key and secret. *)
Definition customSettings (k sec : jsstring) : AppSettings :=
  mkAppSettings (Str k) (Str sec) Undefined.

(** The identifiers of the fields of a configuration. *)
Definition fieldIds (fields : list StorageDropbox.ConfigField) : list jsstring :=
  map StorageDropbox.field_id fields.

(** Labels and features to run examples with. *)
Definition sampleLabels : StorageDropbox.LabelsT :=
  StorageDropbox.mkLabels
    (js "App key") (js "key desc") (js "App secret") (js "secret desc")
    (js "Folder") (js "folder desc") (js "folder placeholder")
    (js "folder settings desc") (js "setup desc") (js "Link")
    (js "App folder") (js "Full Dropbox") (js "Custom").

Definition hosted : StorageDropbox.FeaturesT :=
  StorageDropbox.mkFeatures false.

Definition selfHosted : StorageDropbox.FeaturesT :=
  StorageDropbox.mkFeatures true.

(** ** Further vocabulary: the workspace *)

(** The calls of a notification over a non-empty tag list. *)
Definition tagCalls (l : list jsstring) : list Workspace.MenuCall :=
  Workspace.SetScrollable true
  :: map (fun t => Workspace.AddItem (Workspace.tagItem t)) l.



(** The item [filesChanged] makes for a file that has none. *)
Definition freshFileItem (file : Workspace.OpenFile) : Workspace.SectionItem :=
  Workspace.mkSectionItem (js "lock") (Workspace.file_name file) (js "file")
                          (Some (Workspace.file_id file)).

(** A second set of files for examples. *)
Definition otherFiles : list Workspace.File :=
  [Workspace.mkFile [Workspace.mkEntry (Some [js "Mail"])]].

(** The item of the files section for a file: the one the section already
    has for it, or a fresh one. *)
Definition fileItemFor (menu : Workspace.MenuSections)
           (file : Workspace.OpenFile) : Workspace.SectionItem :=
  match Workspace.findItem (Workspace.filesSection menu) file with
  | Some it => it
  | None => freshFileItem file
  end.

(** The item of the groups section for a file, if any: the one the section
    already has for it, or else the first group of the file. *)
Definition groupItemFor (menu : Workspace.MenuSections)
           (file : Workspace.OpenFile) : option Workspace.SectionItem :=
  match Workspace.findItem (Workspace.groupsSection menu) file with
  | Some it => Some it
  | None => hd_error (Workspace.file_groups file)
  end.

(** File objects are told apart by their identity. *)
Definition identified (files : list Workspace.OpenFile) : Prop :=
  forall f1 f2, In f1 files -> In f2 files ->
                Workspace.file_id f1 = Workspace.file_id f2 -> f1 = f2.

Definition optionToList {A} (o : option A) : list A :=
  match o with Some a => [a] | None => [] end.

(** Two open files and a menu that has an item for the first. *)
Definition sampleOpenFiles : list Workspace.OpenFile :=
  [Workspace.mkOpenFile
     1%nat (js "Personal")
     [Workspace.mkSectionItem (js "folder") (js "Personal") (js "group")
                              (Some 1%nat)]
     (Workspace.mkFile [Workspace.mkEntry (Some [js "Work"])]);
   Workspace.mkOpenFile 2%nat (js "Empty") [] (Workspace.mkFile [])].

Definition sampleMenu : Workspace.MenuSections :=
  Workspace.mkMenuSections
    []
    [Workspace.mkSectionItem (js "lock") (js "Old name") (js "file")
                             (Some 1%nat);
     Workspace.mkSectionItem (js "lock") (js "Closed") (js "file")
                             (Some 7%nat);
     Workspace.mkSectionItem (js "cog") (js "Settings") (js "settings") None].

(** ** Further vocabulary: the open view *)

(** The request [applyConfig] binds into the completion callback. *)
Definition requestOf (random : Z) (config : OpenView.OpenConfig)
  : OpenView.Request :=
  OpenView.mkRequest random (OpenView.config_storage config)
                     (OpenView.config_path config)
                     (OpenView.config_opts config).

(** The views reached from a new one by the five methods that write
    [storageWaitId], in any order and with any arguments. *)
Inductive reachableView (storages : jsstring -> option bool)
  : OpenView.View -> Prop :=
| reach_new : reachableView storages OpenView.initial
| reach_show name v :
    reachableView storages v ->
    reachableView storages (OpenView.showConfig name v)
| reach_close v :
    reachableView storages v ->
    reachableView storages (OpenView.closeConfig v)
| reach_apply random config v :
    reachableView storages v ->
    reachableView storages
      (snd (OpenView.applyConfig storages random config v))
| reach_complete req err v :
    reachableView storages v ->
    reachableView storages
      (snd (OpenView.storageApplyConfigComplete req err v))
| reach_stat_complete req err stat v :
    reachableView storages v ->
    reachableView storages
      (snd (OpenView.storageStatComplete req err stat v)).

(** Storages for examples: only ["dropbox"], which has [applyConfig]. *)
Definition sampleStorages (name : jsstring) : option bool :=
  if str_eqb name (js "dropbox") then Some true else None.

Definition sampleOpenConfig : OpenView.OpenConfig :=
  OpenView.mkOpenConfig (js "dropbox") Undefined
                        [(js "key", Str (js "mykey"))].

End Spec.

(* ===================================================================== *)
(** * Facts about strings                                                 *)
(* ===================================================================== *)

Section StringFacts.

Lemma str_eqb_eq (a b : jsstring) : str_eqb a b = true <-> a = b.
Proof.
  revert b. induction a as [|x a IH]; intros [|y b]; simpl; split;
    try congruence; try reflexivity.
  - intros H. apply andb_true_iff in H as [Hxy Hab].
    apply Z.eqb_eq in Hxy. apply IH in Hab. congruence.
  - intros H. injection H as -> ->.
    rewrite Z.eqb_refl. simpl. now apply IH.
Qed.

Lemma str_eqb_refl (a : jsstring) : str_eqb a a = true.
Proof. now apply str_eqb_eq. Qed.

Lemma str_eqb_neq (a b : jsstring) : str_eqb a b = false <-> a <> b.
Proof.
  split.
  - intros H E. apply str_eqb_eq in E. congruence.
  - intros H. destruct (str_eqb a b) eqn:E; [|reflexivity].
    apply str_eqb_eq in E. contradiction.
Qed.

Lemma startsWith_app (n x : jsstring) : startsWith (n ++ x) n = true.
Proof.
  induction n as [|c n IH]; simpl; [reflexivity|].
  now rewrite Z.eqb_refl.
Qed.

Lemma indexOf_prefix (n x : jsstring) : indexOf (n ++ x) n = 0.
Proof.
  unfold indexOf. destruct (n ++ x) eqn:E; simpl.
  - destruct n; [reflexivity | discriminate].
  - rewrite <- E. destruct n as [|c n]; [reflexivity|].
    change (startsWith ((c :: n) ++ x) (c :: n)) with
      ((c =? c) && startsWith (n ++ x) n).
    now rewrite Z.eqb_refl, startsWith_app.
Qed.

Lemma indexOf_after_one (a c : Z) (n x : jsstring) :
  a <> c -> indexOf (a :: (c :: n) ++ x) (c :: n) = 1.
Proof.
  intros Hac. unfold indexOf. simpl.
  destruct (Z.eqb_spec a c) as [E|_]; [contradiction|]. simpl.
  now rewrite Z.eqb_refl, startsWith_app.
Qed.

Lemma lowerUnit_slash (c : Z) : lowerUnit c = slash <-> c = slash.
Proof.
  unfold lowerUnit, slash.
  destruct (Z.leb_spec 65 c), (Z.leb_spec c 90); simpl; lia.
Qed.


(** The conversion of ASCII text has the two properties assumed of the
    engine's. *)
Lemma asciiLower_lowersAscii : lowersAscii asciiLower.
Proof. intros s _. reflexivity. Qed.

(** A conversion that maps code unit by code unit, the slash to itself and
    nothing else to a slash, works between slashes. *)
Lemma unitwise_keepsSlashes (f : Z -> Z) :
  f slash = slash ->
  (forall c, f c = slash -> c = slash) ->
  keepsSlashes (map f).
Proof.
  intros Hslash Honly. split; [reflexivity|]. split.
  - intros a b. rewrite map_app. cbn [map]. now rewrite Hslash.
  - intros c s Hc. exists (f c), (map f s).
    split; [reflexivity|]. intros E. now apply Hc, Honly.
Qed.

Lemma asciiLower_keepsSlashes : keepsSlashes asciiLower.
Proof.
  apply unitwise_keepsSlashes; [reflexivity|].
  intros c. apply lowerUnit_slash.
Qed.

Lemma latin1Lower_keepsSlashes : keepsSlashes Spec.latin1Lower.
Proof.
  apply unitwise_keepsSlashes; [reflexivity|].
  intros c. destruct ((192 <=? c) && (c <=? 222) && negb (c =? 215)) eqn:E.
  - unfold slash. lia.
  - apply lowerUnit_slash.
Qed.

Lemma isAsciib_isAscii (s : jsstring) : isAsciib s = true -> isAscii s.
Proof.
  unfold isAsciib, isAscii. rewrite forallb_forall, Forall_forall.
  intros H c Hc. specialize (H c Hc). lia.
Qed.

(** A conversion that works between slashes converts the two sides of a
    boundary at a slash each on its own. *)
Lemma lower_slash_cons (toLowerCase : jsstring -> jsstring) (b : jsstring) :
  keepsSlashes toLowerCase ->
  toLowerCase (slash :: b) = slash :: toLowerCase b.
Proof.
  intros [Hnil [Happ _]].
  change (slash :: b) with ([] ++ slash :: b). now rewrite Happ, Hnil.
Qed.

Lemma lower_at_slash (toLowerCase : jsstring -> jsstring) (a t : jsstring) :
  keepsSlashes toLowerCase ->
  (exists t', t = slash :: t') \/ (exists a', a = a' ++ [slash]) ->
  toLowerCase (a ++ t) = toLowerCase a ++ toLowerCase t.
Proof.
  intros Hk [[t' ->] | [a' ->]].
  - rewrite (lower_slash_cons _ _ Hk). now apply Hk.
  - destruct Hk as [Hnil [Happ _]].
    rewrite <- app_assoc. cbn [app]. rewrite !Happ, Hnil, <- app_assoc.
    reflexivity.
Qed.

Lemma substr_app (a b : jsstring) : substr (a ++ b) (Js.length a) = b.
Proof.
  unfold substr, Js.length.
  destruct (Z.ltb_spec (Z.of_nat (List.length a)) 0) as [H|_]; [lia|].
  rewrite Nat2Z.id. rewrite skipn_app, skipn_all, Nat.sub_diag. reflexivity.
Qed.

Lemma substr_cons_app (c : Z) (a b : jsstring) :
  substr (c :: a ++ b) (Js.length a + 1) = b.
Proof.
  unfold substr, Js.length.
  destruct (Z.ltb_spec (Z.of_nat (List.length a) + 1) 0) as [H|_]; [lia|].
  replace (Z.to_nat (Z.of_nat (List.length a) + 1)) with (S (List.length a))
    by lia.
  simpl. rewrite skipn_app, skipn_all, Nat.sub_diag. reflexivity.
Qed.

End StringFacts.

(* ===================================================================== *)
(** * Path resolution                                                     *)
(* ===================================================================== *)

Section PathResolver.

Import UrlFormat Spec StorageDropbox.

Variable toLowerCase : jsstring -> jsstring.

Lemma fixSlashes_other (c : Z) (x : jsstring) :
  c <> slash -> fixSlashes (c :: x) = c :: fixSlashes x.
Proof.
  intros Hc. destruct x as [|b x]; simpl; [reflexivity|].
  destruct (Z.eqb_spec c slash); [contradiction | reflexivity].
Qed.

Lemma fixSlashes_slash_slash (x : jsstring) :
  fixSlashes (slash :: slash :: x) = fixSlashes (slash :: x).
Proof. reflexivity. Qed.

Lemma fixSlashes_slash_other (c : Z) (x : jsstring) :
  c <> slash -> fixSlashes (slash :: c :: x) = slash :: fixSlashes (c :: x).
Proof.
  intros Hc. change (fixSlashes (slash :: c :: x)) with
    (if (slash =? slash) && (c =? slash) then fixSlashes (c :: x)
     else slash :: fixSlashes (c :: x)).
  destruct (Z.eqb_spec c slash); [contradiction|].
  now rewrite andb_false_r.
Qed.

Lemma fixSlashes_head (a : Z) (x : jsstring) :
  exists y, fixSlashes (a :: x) = a :: y.
Proof.
  revert a. induction x as [|b x IH]; intros a.
  - now exists [].
  - change (fixSlashes (a :: b :: x)) with
      (if (a =? slash) && (b =? slash) then fixSlashes (b :: x)
       else a :: fixSlashes (b :: x)).
    destruct (Z.eqb_spec a slash) as [Ea|Na];
      destruct (Z.eqb_spec b slash) as [Eb|Nb]; cbn [andb]; eauto.
    destruct (IH b) as [y Hy]. exists y. rewrite Hy. congruence.
Qed.

Lemma fixSlashes_noDoubleSlash (x : jsstring) :
  noDoubleSlash (fixSlashes x) = true.
Proof.
  induction x as [|a x IH]; [reflexivity|].
  destruct x as [|b x]; [reflexivity|].
  change (fixSlashes (a :: b :: x)) with
    (if (a =? slash) && (b =? slash) then fixSlashes (b :: x)
     else a :: fixSlashes (b :: x)).
  destruct ((a =? slash) && (b =? slash)) eqn:E; [exact IH|].
  destruct (fixSlashes_head b x) as [y Hy]. rewrite Hy in *.
  change (noDoubleSlash (a :: b :: y)) with
    (negb ((a =? slash) && (b =? slash)) && noDoubleSlash (b :: y)).
  now rewrite E, IH.
Qed.

Lemma fixSlashes_fixed (x : jsstring) :
  noDoubleSlash x = true -> fixSlashes x = x.
Proof.
  induction x as [|a x IH]; [reflexivity|].
  destruct x as [|b x]; [reflexivity|].
  change (noDoubleSlash (a :: b :: x)) with
    (negb ((a =? slash) && (b =? slash)) && noDoubleSlash (b :: x)).
  change (fixSlashes (a :: b :: x)) with
    (if (a =? slash) && (b =? slash) then fixSlashes (b :: x)
     else a :: fixSlashes (b :: x)).
  intros H. apply andb_true_iff in H as [H1 H2].
  apply negb_true_iff in H1. rewrite H1. now rewrite (IH H2).
Qed.

Lemma fixSlashes_idempotent (x : jsstring) :
  fixSlashes (fixSlashes x) = fixSlashes x.
Proof. apply fixSlashes_fixed, fixSlashes_noDoubleSlash. Qed.

(** Under a root without doubled slashes, the full path keeps the root as
    written, and what follows it normalizes like the logical path; a slash
    ends the root or begins what follows. *)
Lemma fixSlashes_root (r y : jsstring) :
  noDoubleSlash r = true ->
  exists t, fixSlashes (r ++ slash :: y) = r ++ t
            /\ fixSlashes (slash :: t) = fixSlashes (slash :: y)
            /\ ((exists t', t = slash :: t') \/ (exists r', r = r' ++ [slash])).
Proof.
  induction r as [|c r IH]; intros Hr.
  - destruct (fixSlashes_head slash y) as [t0 Ht0].
    exists (slash :: t0). simpl app. split; [exact Ht0|]. split; [|eauto].
    rewrite fixSlashes_slash_slash, <- Ht0. apply fixSlashes_idempotent.
  - assert (Hend : forall t : jsstring,
               (exists t', t = slash :: t') \/ (exists r', r = r' ++ [slash]) ->
               (exists t', t = slash :: t')
               \/ (exists r', c :: r = r' ++ [slash])).
    { intros t [H | [r' ->]]; [now left | right]. now exists (c :: r'). }
    destruct (Z.eqb_spec c slash) as [Ec|Nc].
    + subst c. destruct r as [|e r].
      * destruct (fixSlashes_head slash y) as [t0 Ht0].
        exists t0. simpl app. rewrite fixSlashes_slash_slash.
        split; [exact Ht0|]. split; [|right; now exists []].
        rewrite <- Ht0. apply fixSlashes_idempotent.
      * change (noDoubleSlash (slash :: e :: r)) with
          (negb ((slash =? slash) && (e =? slash)) && noDoubleSlash (e :: r))
          in Hr.
        apply andb_true_iff in Hr as [H1 H2].
        destruct (Z.eqb_spec e slash) as [Ee|Ne]; [discriminate|].
        destruct (IH H2) as [t [Ht1 [Ht2 Ht3]]]. exists t.
        split; [|split; [exact Ht2 | now apply Hend]].
        simpl app in *. rewrite fixSlashes_slash_other by assumption.
        now rewrite Ht1.
    + assert (H2 : noDoubleSlash r = true).
      { destruct r as [|e r]; [reflexivity|].
        change (noDoubleSlash (c :: e :: r)) with
          (negb ((c =? slash) && (e =? slash)) && noDoubleSlash (e :: r)) in Hr.
        now apply andb_true_iff in Hr as [_ H2]. }
      destruct (IH H2) as [t [Ht1 [Ht2 Ht3]]]. exists t.
      split; [|split; [exact Ht2 | now apply Hend]].
      simpl app. rewrite fixSlashes_other by assumption. now rewrite Ht1.
Qed.

(** On ASCII text [toRelPath] does not depend on the case tables. *)
Lemma toRelPath_ascii (r path : jsstring) :
  lowersAscii toLowerCase ->
  isAscii r ->
  isAscii path ->
  toRelPath toLowerCase (withFolder r) path
  = toRelPath asciiLower (withFolder r) path.
Proof.
  intros Hlow Hr Hpath. unfold toRelPath, withFolder. cbn [dropboxFolder].
  destruct r as [|c r]; [reflexivity|].
  now rewrite (Hlow _ Hpath), (Hlow _ Hr).
Qed.

(** [toRelPath] strips the root where it stands at the head of the path or
    after one leading unit, in whatever case the path spells it, when a
    slash marks its end. *)
Lemma toRelPath_strips_root (r r' t : jsstring) :
  keepsSlashes toLowerCase ->
  r <> [] ->
  toLowerCase r' = toLowerCase r ->
  Js.length r' = Js.length r ->
  (exists t', t = slash :: t') \/ (exists a, r' = a ++ [slash]) ->
  toRelPath toLowerCase (withFolder r) (r' ++ t) = fixSlashes (slash :: t)
  /\ (startsWithSlash r = false ->
      toRelPath toLowerCase (withFolder r) (slash :: r' ++ t)
      = fixSlashes (slash :: t)).
Proof.
  intros Hk Hne Hcase Hlen Hend.
  pose proof (lower_at_slash toLowerCase r' t Hk Hend) as Happ.
  destruct r as [|c r]; [contradiction|].
  unfold toRelPath, withFolder. cbn [dropboxFolder]. split.
  - rewrite Happ, Hcase, indexOf_prefix. cbn [Z.eqb].
    rewrite <- Hlen, substr_app. reflexivity.
  - intros Hslash.
    assert (Hc : c <> slash).
    { intros ->. cbn in Hslash. discriminate. }
    assert (Hix : indexOf (toLowerCase (slash :: r' ++ t))
                          (toLowerCase (c :: r)) = 1).
    { rewrite (lower_slash_cons _ _ Hk), Happ, Hcase.
      destruct Hk as [_ [_ Hhead]].
      destruct (Hhead c r Hc) as [d [rest [-> Hd]]].
      apply indexOf_after_one. congruence. }
    rewrite Hix. cbn [Z.eqb]. rewrite <- Hlen, substr_cons_app. reflexivity.
Qed.

Lemma toRelPath_toFullPath_normalize (r p : jsstring) :
  keepsSlashes toLowerCase ->
  r <> [] ->
  noDoubleSlash r = true ->
  toRelPath toLowerCase (withFolder r) (toFullPath (withFolder r) p)
  = normalize p.
Proof.
  intros Hk Hne Hr. destruct (fixSlashes_root r p Hr) as [t [Ht1 [Ht2 Ht3]]].
  destruct (toRelPath_strips_root r r t Hk Hne eq_refl eq_refl Ht3)
    as [H0 H1].
  destruct r as [|c r]; [contradiction|].
  unfold toFullPath, withFolder, normalize. cbn [dropboxFolder app].
  fold (withFolder (c :: r)).
  destruct (Z.eqb_spec c slash) as [->|Nc].
  - rewrite fixSlashes_slash_slash.
    change (slash :: r ++ slash :: p) with ((slash :: r) ++ slash :: p).
    now rewrite Ht1, H0.
  - rewrite fixSlashes_slash_other by assumption.
    change (c :: r ++ slash :: p) with ((c :: r) ++ slash :: p).
    rewrite Ht1, H1; [assumption|].
    cbn. now apply Z.eqb_neq.
Qed.

(** The two examples of the specification, on ASCII text. *)
Example toFullPath_vault :
  toFullPath (withFolder (js "Vault")) (js "db.kdbx") = js "/Vault/db.kdbx".
Proof. reflexivity. Qed.

Example toRelPath_vault :
  lowersAscii toLowerCase ->
  toRelPath toLowerCase (withFolder (js "Vault")) (js "/vault/sub/db.kdbx")
  = js "/sub/db.kdbx".
Proof.
  intros Hlow.
  now rewrite toRelPath_ascii by (assumption || now apply isAsciib_isAscii).
Qed.

(** C3, the code at the failing input.  The root folder ["a//b"] passes
    [fixConfigFolder] as it is.  The full path of ["db.kdbx"] under it is
    ["/a/b/db.kdbx"]: [toFullPath] has collapsed the doubled slash of the
    root.  [toRelPath] looks for the root as configured, does not find it,
    and returns ["/a/b/db.kdbx"] where the round trip asks for
    ["/db.kdbx"]; resolved again, that path names
    ["/a/b/a/b/db.kdbx"]. *)
Theorem path_round_trip_doubled_slash_root :
  lowersAscii toLowerCase ->
  fixConfigFolder (js "a//b") = js "a//b"
  /\ toFullPath (withFolder (js "a//b")) (js "db.kdbx") = js "/a/b/db.kdbx"
  /\ toRelPath toLowerCase (withFolder (js "a//b")) (js "/a/b/db.kdbx")
     = js "/a/b/db.kdbx"
  /\ normalize (js "db.kdbx") = js "/db.kdbx"
  /\ toRelPath toLowerCase (withFolder (js "a//b"))
               (toFullPath (withFolder (js "a//b")) (js "db.kdbx"))
     <> normalize (js "db.kdbx")
  /\ toFullPath (withFolder (js "a//b"))
                (toRelPath toLowerCase (withFolder (js "a//b"))
                           (toFullPath (withFolder (js "a//b"))
                                       (js "db.kdbx")))
     = js "/a/b/a/b/db.kdbx".
Proof.
  intros Hlow.
  assert (Hfull : toFullPath (withFolder (js "a//b")) (js "db.kdbx")
                  = js "/a/b/db.kdbx") by reflexivity.
  assert (Hrel : toRelPath toLowerCase (withFolder (js "a//b"))
                           (js "/a/b/db.kdbx")
                 = js "/a/b/db.kdbx").
  { now rewrite toRelPath_ascii
      by (assumption || now apply isAsciib_isAscii). }
  rewrite Hfull, Hrel.
  refine (conj eq_refl (conj eq_refl (conj eq_refl (conj eq_refl
           (conj _ eq_refl))))).
  discriminate.
Qed.

(** The round trip, where it holds: for every logical path [p] and every
    non-empty root folder [r] without a doubled slash,
    [toRelPath (toFullPath p)] is the slash-normalized form of [p]. *)
Theorem path_round_trip (r p : jsstring) :
  keepsSlashes toLowerCase ->
  r <> [] ->
  noDoubleSlash r = true ->
  toRelPath toLowerCase (withFolder r) (toFullPath (withFolder r) p)
  = normalize p.
Proof. exact (toRelPath_toFullPath_normalize r p). Qed.

End PathResolver.

(* ===================================================================== *)
(** * The embedded-metadata header                                        *)
(* ===================================================================== *)

Section HeaderEncoding.

Import Spec StorageDropbox.

Lemma hexDigit_range (d : Z) :
  0 <= d < 16 -> 48 <= hexDigit d <= 102.
Proof. unfold hexDigit. destruct (Z.ltb_spec d 10); lia. Qed.

Lemma hexDigit_mod16 (n : Z) : 48 <= hexDigit (n mod 16) <= 102.
Proof. apply hexDigit_range. apply Z.mod_pos_bound. lia. Qed.

Lemma hexDigit_mod10 (n : Z) : 48 <= hexDigit (n mod 10) <= 57.
Proof.
  unfold hexDigit. pose proof (Z.mod_pos_bound n 10 ltac:(lia)).
  destruct (Z.ltb_spec (n mod 10) 10); lia.
Qed.

Lemma unicodeEscape_printable (c : Z) :
  Forall isPrintableAscii (unicodeEscape c).
Proof.
  unfold unicodeEscape, isPrintableAscii, backslash.
  repeat constructor;
    try match goal with
        | |- context [hexDigit (?n mod 16)] =>
            pose proof (hexDigit_mod16 n); lia
        end; lia.
Qed.

(** The callback of the source writes exactly [\uXXXX]. *)
Lemma escapeUnit_unicodeEscape (c : Z) :
  127 <= c <= 65535 -> escapeUnit c = unicodeEscape c.
Proof.
  intros Hc. unfold escapeUnit, unicodeEscape, toString16.
  assert (D1 : c / 16 / 16 = c / 256) by (rewrite Z.div_div by lia; reflexivity).
  assert (D2 : c / 16 / 16 / 16 = c / 4096)
    by (rewrite !Z.div_div by lia; reflexivity).
  assert (D3 : c / 16 / 16 / 16 / 16 = 0)
    by (rewrite !Z.div_div by lia; apply Z.div_small; lia).
  cbn [digitsFuel].
  destruct (Z.eqb_spec (c / 16) 0) as [E1|N1].
  { exfalso. assert (c < 16) by (apply Z.div_small_iff in E1; lia). lia. }
  destruct (Z.eqb_spec (c / 16 / 16) 0) as [E2|N2].
  { rewrite D1 in E2.
    assert (Hs : c / 4096 = 0).
    { apply Z.div_small. apply Z.div_small_iff in E2; lia. }
    rewrite Hs, E2. reflexivity. }
  destruct (Z.eqb_spec (c / 16 / 16 / 16) 0) as [E3|N3].
  { rewrite D2 in E3. rewrite D1, E3. reflexivity. }
  rewrite D3, D2, D1. reflexivity.
Qed.

Lemma encodeJsonHttpHeader_escapeNonAscii (json : jsstring) :
  Forall isCodeUnit json -> encodeJsonHttpHeader json = escapeNonAscii json.
Proof.
  unfold encodeJsonHttpHeader, escapeNonAscii.
  induction 1 as [|c json Hc _ IH]; [reflexivity|].
  cbn [flat_map]. rewrite IH. f_equal. unfold isCodeUnit in Hc.
  destruct (Z.leb_spec 127 c); cbn [andb]; [|reflexivity].
  destruct (Z.leb_spec c 65535); [|lia].
  apply escapeUnit_unicodeEscape. lia.
Qed.

Lemma escapeNonAscii_printable (json : jsstring) :
  Forall (fun c => 32 <= c <= 65535) json ->
  Forall isPrintableAscii (escapeNonAscii json).
Proof.
  unfold escapeNonAscii. induction 1 as [|c json Hc _ IH]; [constructor|].
  cbn [flat_map]. apply Forall_app. split; [|exact IH].
  destruct (Z.leb_spec 127 c).
  - apply unicodeEscape_printable.
  - constructor; [unfold isPrintableAscii; lia | constructor].
Qed.

(** ** What [JSON.stringify] writes *)

Lemma digitsFuel_visible (fuel : nat) (n : Z) (acc : jsstring) :
  Forall isVisibleUnit acc -> Forall isVisibleUnit (digitsFuel 10 fuel n acc).
Proof.
  revert n acc. induction fuel as [|fuel IH]; intros n acc Hacc; [exact Hacc|].
  cbn [digitsFuel].
  assert (Forall isVisibleUnit (hexDigit (n mod 10) :: acc)).
  { constructor; [|exact Hacc].
    pose proof (hexDigit_mod10 n). unfold isVisibleUnit. lia. }
  destruct (n / 10 =? 0); [assumption | now apply IH].
Qed.

Lemma numberToString_visible (n : Z) : Forall isVisibleUnit (numberToString n).
Proof.
  unfold numberToString. destruct (n <? 0).
  - constructor; [unfold isVisibleUnit; lia|].
    apply digitsFuel_visible. constructor.
  - apply digitsFuel_visible. constructor.
Qed.

Lemma printable_visible (s : jsstring) :
  Forall isPrintableAscii s -> Forall isVisibleUnit s.
Proof.
  apply Forall_impl. unfold isPrintableAscii, isVisibleUnit. lia.
Qed.

Lemma visible_literal_check (s : jsstring) :
  forallb (fun c => (32 <=? c) && (c <=? 65535)) s = true ->
  Forall isVisibleUnit s.
Proof.
  intros H. apply Forall_forall. intros c Hc.
  apply (proj1 (forallb_forall _ _) H) in Hc.
  apply andb_true_iff in Hc as [H1 H2]. unfold isVisibleUnit. lia.
Qed.

Ltac visible_literal := apply visible_literal_check; reflexivity.

Lemma quoteUnit_visible (c : Z) :
  isCodeUnit c -> Forall isVisibleUnit (quoteUnit c).
Proof.
  intros Hc. unfold quoteUnit, isCodeUnit in *.
  repeat match goal with
         | |- context [if ?x =? ?y then _ else _] =>
             destruct (Z.eqb_spec x y); [visible_literal|]
         end.
  destruct (Z.ltb_spec c 32); cbn [orb].
  - apply printable_visible, unicodeEscape_printable.
  - destruct (isHighSurrogate c || isLowSurrogate c).
    + apply printable_visible, unicodeEscape_printable.
    + constructor; [unfold isVisibleUnit; lia | constructor].
Qed.

Lemma quoteBody_visible_upto (n : nat) (s : jsstring) :
  (List.length s <= n)%nat ->
  Forall isCodeUnit s -> Forall isVisibleUnit (quoteBody s).
Proof.
  revert s. induction n as [|n IH]; intros s Hlen Hs.
  - destruct s; [constructor | simpl in Hlen; lia].
  - destruct s as [|c s]; [constructor|].
    inversion Hs as [|? ? Hc Hs']; subst.
    destruct s as [|d s].
    + cbn [quoteBody]. now apply quoteUnit_visible.
    + change (quoteBody (c :: d :: s)) with
        (if isHighSurrogate c && isLowSurrogate d
         then c :: d :: quoteBody s
         else quoteUnit c ++ quoteBody (d :: s)).
      simpl in Hlen. inversion Hs' as [|? ? Hd Hs'']; subst.
      destruct (isHighSurrogate c && isLowSurrogate d) eqn:E.
      * apply andb_true_iff in E as [E1 E2].
        unfold isHighSurrogate, isLowSurrogate, isCodeUnit in *.
        constructor; [unfold isVisibleUnit; lia|].
        constructor; [unfold isVisibleUnit; lia|].
        apply IH; [lia | assumption].
      * apply Forall_app. split; [now apply quoteUnit_visible|].
        apply IH; [simpl; lia | assumption].
Qed.

Lemma quoteJSONString_visible (s : jsstring) :
  Forall isCodeUnit s -> Forall isVisibleUnit (quoteJSONString s).
Proof.
  intros Hs. unfold quoteJSONString.
  constructor; [unfold isVisibleUnit; lia|].
  apply Forall_app. split.
  - now apply (quoteBody_visible_upto (List.length s)).
  - visible_literal.
Qed.

Lemma join_visible (l : Datatypes.list jsstring) :
  Forall (Forall isVisibleUnit) l -> Forall isVisibleUnit (join [comma] l).
Proof.
  induction 1 as [|s l Hs Hl IH]; [constructor|].
  destruct l as [|s' l]; [exact Hs|].
  change (join [comma] (s :: s' :: l)) with
    (s ++ [comma] ++ join [comma] (s' :: l)).
  apply Forall_app. split; [exact Hs|].
  apply Forall_app. split; [visible_literal | exact IH].
Qed.

(** Induction on values, through the lists of arrays and objects. *)
Lemma JsVal_nested_ind (P : JsVal -> Prop)
  (Hundefined : P JUndefined) (Hnull : P JNull)
  (Hbool : forall b, P (JBool b)) (Hnum : forall n, P (JNum n))
  (Hstr : forall s, P (JStr s))
  (Harr : forall items, Forall P items -> P (JArr items))
  (Hobj : forall fields, Forall (fun kv => P (snd kv)) fields -> P (JObj fields))
  : forall v, P v.
Proof.
  fix go 1. intros [| |b|n|s|items|fields].
  - exact Hundefined.
  - exact Hnull.
  - apply Hbool.
  - apply Hnum.
  - apply Hstr.
  - apply Harr. induction items as [|x items IH]; constructor;
      [apply go | exact IH].
  - apply Hobj. induction fields as [|kv fields IH]; constructor;
      [apply go | exact IH].
Qed.

Lemma stringify_visible (v : JsVal) :
  wellFormed v ->
  forall s, stringify v = Some s -> Forall isVisibleUnit s.
Proof.
  induction v as [| |b|n|t|items IH|fields IH] using JsVal_nested_ind;
    intros Hwf s Hs.
  - discriminate.
  - injection Hs as <-. visible_literal.
  - destruct b; injection Hs as <-; visible_literal.
  - injection Hs as <-. apply numberToString_visible.
  - injection Hs as <-. now apply quoteJSONString_visible.
  - cbn [stringify] in Hs. injection Hs as <-.
    constructor; [unfold isVisibleUnit; lia|].
    apply Forall_app. split; [|visible_literal].
    apply join_visible.
    induction IH as [|x items Hx _ IHitems]; [constructor|].
    destruct Hwf as [Hwx Hwitems].
    cbn [map]. constructor; [|now apply IHitems].
    destruct (stringify x) as [t|] eqn:E.
    + now apply Hx.
    + visible_literal.
  - cbn [stringify] in Hs. injection Hs as <-.
    constructor; [unfold isVisibleUnit; lia|].
    apply Forall_app. split; [|visible_literal].
    apply join_visible.
    induction IH as [|[k x] fields Hx _ IHfields]; [constructor|].
    destruct Hwf as [Hwk [Hwx Hwfields]]. cbn [snd] in Hx.
    destruct (stringify x) as [t|] eqn:E.
    + constructor; [|now apply IHfields].
      change (Forall isVisibleUnit (quoteJSONString k ++ js ":" ++ t)).
      apply Forall_app. split; [now apply quoteJSONString_visible|].
      apply Forall_app. split; [visible_literal | now apply Hx].
    + now apply IHfields.
Qed.

(** C6: the header value is the JSON text with every code unit at or above
    [0x7f] replaced by [\uXXXX] (four lowercase hex digits) and every other
    code unit unchanged; no code unit of the result is above [0x7e]; and the
    [Dropbox-API-Arg] header that [apiCall] builds from the serialized
    request arguments consists of printable ASCII only. *)
Theorem encodeJsonHttpHeader_ascii
  (args : ApiArgs) (arg : Datatypes.list (jsstring * JsVal)) (json : jsstring) :
  Forall isCodeUnit json ->
  wellFormed (JObj arg) ->
  api_apiArg args = Some arg ->
  encodeJsonHttpHeader json = escapeNonAscii json
  /\ Forall (fun c => 0 <= c < 127) (encodeJsonHttpHeader json)
  /\ exists value,
       headers (apiRequest args) = [(js "Dropbox-API-Arg", value)]
       /\ value = encodeJsonHttpHeader (stringifyObject (JObj arg))
       /\ Forall isPrintableAscii value.
Proof.
  intros Hjson Hwf Harg. split; [now apply encodeJsonHttpHeader_escapeNonAscii|].
  split.
  - rewrite encodeJsonHttpHeader_escapeNonAscii by assumption.
    unfold escapeNonAscii. induction Hjson as [|c json Hc _ IH]; [constructor|].
    cbn [flat_map]. apply Forall_app. split; [|exact IH].
    unfold isCodeUnit in Hc. destruct (Z.leb_spec 127 c).
    + pose proof (unicodeEscape_printable c) as Hp.
      revert Hp. apply Forall_impl. unfold isPrintableAscii. lia.
    + constructor; [lia | constructor].
  - exists (encodeJsonHttpHeader (stringifyObject (JObj arg))).
    split; [unfold apiRequest; rewrite Harg; reflexivity|].
    split; [reflexivity|].
    assert (Hv : Forall isVisibleUnit (stringifyObject (JObj arg))).
    { unfold stringifyObject.
      destruct (stringify (JObj arg)) as [t|] eqn:E; [|discriminate].
      exact (stringify_visible (JObj arg) Hwf t E). }
    rewrite encodeJsonHttpHeader_escapeNonAscii.
    + now apply escapeNonAscii_printable.
    + revert Hv. apply Forall_impl. unfold isVisibleUnit, isCodeUnit. lia.
Qed.

End HeaderEncoding.

(* ===================================================================== *)
(** * The API call executor and the data operations                       *)
(* ===================================================================== *)

Section ApiCalls.

Import Spec StorageDropbox.

Variable toLowerCase : jsstring -> jsstring.
Variable base : StorageBaseT.

Lemma apiCall_response (args : ApiArgs) (w : World) (response : HttpResponse) :
  oauthAuthorize base = Returned tt ->
  xhr base (apiRequest args) = inr response ->
  apiCall base args w = (Returned response, called args w).
Proof.
  intros Hauth Hxhr. unfold apiCall, bind, logCall, answer, ret.
  cbn. rewrite Hauth, Hxhr. reflexivity.
Qed.

Lemma apiCall_thrown (args : ApiArgs) (w : World) (e : Thrown) :
  oauthAuthorize base = Returned tt ->
  xhr base (apiRequest args) = inl e ->
  apiCall base args w = apiCallCatch e (called args w).
Proof.
  intros Hauth Hxhr. unfold apiCall, bind, logCall, answer, ret.
  cbn. rewrite Hauth, Hxhr. reflexivity.
Qed.

Lemma strictEqStr_eq (v : JsVal) (s : jsstring) :
  strictEqStr v s = true <-> v = JStr s.
Proof.
  destruct v; simpl; split; try discriminate.
  - intros H. apply str_eqb_eq in H. congruence.
  - intros H. injection H as ->. apply str_eqb_refl.
Qed.

Lemma apiCallCatch_not_found (e : Thrown) (w : World) :
  notFoundShaped e -> apiCallCatch e w = (Threw StorageFileNotFoundError, w).
Proof.
  intros [pathFields [Hpath Htag]]. unfold apiCallCatch, bind, thrownProp.
  destruct e as [status fields|v]; cbn [errorBody] in Hpath.
  - cbn [getProp] in Hpath. injection Hpath as Hpath.
    cbn [ret]. rewrite Hpath. cbn [truthy typeofObject andb getPropOpt getProp].
    rewrite Htag. reflexivity.
  - unfold readProp. rewrite Hpath. cbn [ret truthy typeofObject andb getPropOpt getProp].
    rewrite Htag. reflexivity.
Qed.

Lemma apiCallCatch_generic (status : Z) (fields : Datatypes.list (jsstring * JsVal))
      (w : World) :
  ~ notFoundShaped (HttpRequestError status fields) ->
  apiCallCatch (HttpRequestError status fields) w
  = (Threw (Error (js "API error, status code " ++ numberToString status)), w).
Proof.
  intros Hnot. unfold apiCallCatch, bind, thrownProp. cbn [ret statusOf].
  destruct (lookup (js "path") fields) as [| |b|n|s|items|pathFields] eqn:Hpath;
    cbn [truthy typeofObject andb getPropOpt getProp];
    try reflexivity.
  - destruct b; reflexivity.
  - destruct (negb (n =? 0)); reflexivity.
  - destruct (negb (str_eqb s [])); reflexivity.
  - destruct (strictEqStr (lookup (js ".tag") pathFields) (js "not_found")) eqn:E;
      [|reflexivity].
    exfalso. apply Hnot. exists pathFields. split.
    + cbn [errorBody getProp]. now rewrite Hpath.
    + now apply strictEqStr_eq.
Qed.

(** C2: a failed API call whose error body contains a path object with
    [.tag] equal to ["not_found"] surfaces as [StorageFileNotFoundError],
    whatever the HTTP status; every other HTTP failure surfaces as the
    generic API error carrying the numeric status. *)
Theorem apiCall_error_mapping (args : ApiArgs) (w : World) (e : Thrown) :
  oauthAuthorize base = Returned tt ->
  xhr base (apiRequest args) = inl e ->
  (notFoundShaped e ->
   fst (apiCall base args w) = Threw StorageFileNotFoundError)
  /\ (forall status fields,
        e = HttpRequestError status fields ->
        ~ notFoundShaped e ->
        fst (apiCall base args w)
        = Threw (Error (js "API error, status code " ++ numberToString status))).
Proof.
  intros Hauth Hxhr. rewrite (apiCall_thrown args w e Hauth Hxhr). split.
  - intros Hnf. now rewrite apiCallCatch_not_found.
  - intros status fields -> Hnot. now rewrite apiCallCatch_generic.
Qed.

Lemma apiCallCatch_world (e : Thrown) (w : World) :
  snd (apiCallCatch e w) = w.
Proof.
  unfold apiCallCatch, bind, thrownProp.
  destruct e as [status fields|v].
  - cbn [ret].
    destruct (truthy (lookup (js "path") fields)
              && typeofObject (lookup (js "path") fields));
      [destruct (strictEqStr _ _)|]; reflexivity.
  - unfold readProp. destruct (getProp v (js "path")) as [p|]; [|reflexivity].
    cbn [ret].
    destruct (truthy p && typeofObject p);
      [destruct (strictEqStr _ _)|]; reflexivity.
Qed.

Lemma apiCallCatch_throws (e : Thrown) (w : World) :
  exists x, fst (apiCallCatch e w) = Threw x.
Proof.
  unfold apiCallCatch, bind, thrownProp.
  destruct e as [status fields|v].
  - cbn [ret].
    destruct (truthy (lookup (js "path") fields)
              && typeofObject (lookup (js "path") fields));
      [destruct (strictEqStr _ _)|]; eexists; reflexivity.
  - unfold readProp. destruct (getProp v (js "path")) as [p|];
      [|eexists; reflexivity].
    cbn [ret].
    destruct (truthy p && typeofObject p);
      [destruct (strictEqStr _ _)|]; eexists; reflexivity.
Qed.

(** ** [save] *)

Lemma save_response (path : jsstring) (data : Datatypes.list Z)
      (rev : option jsstring) (w : World) (response : HttpResponse) :
  oauthAuthorize base = Returned tt ->
  xhr base (apiRequest (uploadArgs w path data rev)) = inr response ->
  isNullish (resp_data response) = false ->
  save base path data rev w
  = (Returned (mkSaveResult
                 (optStringOf (getPropOpt (resp_data response) (js "rev")))),
     called (uploadArgs w path data rev) w).
Proof.
  intros Hauth Hxhr Hdata. unfold save, bind, getSettings.
  fold (uploadArgs w path data rev).
  rewrite (apiCall_response _ _ _ Hauth Hxhr).
  unfold readProp, getPropOpt.
  destruct (resp_data response) as [| |b|n|s|items|fields];
    try discriminate; cbn [getProp ret optStringOf]; try reflexivity.
  destruct (lookup (js "rev") fields); reflexivity.
Qed.

Lemma save_thrown (path : jsstring) (data : Datatypes.list Z)
      (rev : option jsstring) (w : World) (e : Thrown) :
  oauthAuthorize base = Returned tt ->
  xhr base (apiRequest (uploadArgs w path data rev)) = inl e ->
  exists x,
    apiCallCatch e (called (uploadArgs w path data rev) w)
    = (Threw x, called (uploadArgs w path data rev) w)
    /\ save base path data rev w
       = (Threw x, called (uploadArgs w path data rev) w).
Proof.
  intros Hauth Hxhr. unfold save, bind, getSettings.
  fold (uploadArgs w path data rev).
  rewrite (apiCall_thrown _ _ _ Hauth Hxhr).
  destruct (apiCallCatch_throws e (called (uploadArgs w path data rev) w))
    as [x Hx].
  pose proof (apiCallCatch_world e (called (uploadArgs w path data rev) w))
    as Hw.
  destruct (apiCallCatch e (called (uploadArgs w path data rev) w))
    as [o w'] eqn:E.
  cbn [fst snd] in Hx, Hw. subst o w'. exists x. split; reflexivity.
Qed.

Example save_matching_rev :
  fst (save (remoteAt (js "/db.kdbx") (js "xyz") (js "xyz2"))
            (js "/db.kdbx") [1; 2; 3] (Some (js "xyz")) emptyWorld)
  = Returned (mkSaveResult (Some (js "xyz2"))).
Proof. vm_compute. reflexivity. Qed.

Example save_without_rev :
  fst (save (remoteAt (js "/db.kdbx") (js "xyz") (js "xyz2"))
            (js "/db.kdbx") [1; 2; 3] None emptyWorld)
  = Returned (mkSaveResult (Some (js "xyz2"))).
Proof. vm_compute. reflexivity. Qed.

(** C1, the claim as stated fails: a save with revision ["abc"] against a
    remote that is at revision ["xyz"] is refused as a conflict, and [save]
    reports it as the generic ["API error, status code 409"], the very error
    it reports when the account is full.  No conflict error exists that a
    caller could tell apart. *)
Lemma save_conflict_is_generic_api_error :
  xhr (remoteAt (js "/db.kdbx") (js "xyz") (js "xyz2"))
      (apiRequest (uploadArgs emptyWorld (js "/db.kdbx") [1; 2; 3]
                              (Some (js "abc"))))
  = inl conflictError
  /\ fst (save (remoteAt (js "/db.kdbx") (js "xyz") (js "xyz2"))
               (js "/db.kdbx") [1; 2; 3] (Some (js "abc")) emptyWorld)
     = Threw (Error (js "API error, status code 409"))
  /\ fst (save (refusing insufficientSpaceError)
               (js "/db.kdbx") [1; 2; 3] (Some (js "abc")) emptyWorld)
     = Threw (Error (js "API error, status code 409")).
Proof. vm_compute. repeat split. Qed.

(** C1, amended: [save] sends one upload request; its mode is [update]
    carrying the revision when a non-empty revision is supplied and
    [overwrite] when the revision is omitted (or empty).  When the transport
    refuses the request with an HTTP error that is not of the not-found
    shape (a revision mismatch is such an error), [save] fails with the
    generic API error carrying the status.  When the transport answers with
    a body that is not [null], [save] returns the [rev] of the body when
    that is a string and no [rev] otherwise; a body that is [null] or
    [undefined] makes it fail with a [TypeError]. *)
Theorem save_modes (path : jsstring) (data : Datatypes.list Z)
        (rev : option jsstring) (w : World) :
  oauthAuthorize base = Returned tt ->
  api_apiArg (uploadArgs w path data rev)
  = Some [(js "path", JStr (toFullPath (settings w) path));
          (js "mode", match rev with
                      | Some (c :: r) => updateMode (c :: r)
                      | _ => overwriteMode
                      end)]
  /\ snd (save base path data rev w) = called (uploadArgs w path data rev) w
  /\ (forall status fields,
        xhr base (apiRequest (uploadArgs w path data rev))
        = inl (HttpRequestError status fields) ->
        ~ notFoundShaped (HttpRequestError status fields) ->
        fst (save base path data rev w)
        = Threw (Error (js "API error, status code " ++ numberToString status)))
  /\ (forall response,
        xhr base (apiRequest (uploadArgs w path data rev)) = inr response ->
        fst (save base path data rev w)
        = if isNullish (resp_data response)
          then Threw TypeError
          else Returned (mkSaveResult
                           (optStringOf
                              (getPropOpt (resp_data response) (js "rev"))))).
Proof.
  intros Hauth. split; [|split; [|split]].
  - unfold uploadArgs, saveRequest, writeMode. cbn [api_apiArg].
    destruct rev as [[|c r]|]; reflexivity.
  - destruct (xhr base (apiRequest (uploadArgs w path data rev)))
      as [e|response] eqn:Hxhr.
    + destruct (save_thrown path data rev w e Hauth Hxhr) as [x [_ Hs]].
      now rewrite Hs.
    + unfold save, bind, getSettings. fold (uploadArgs w path data rev).
      rewrite (apiCall_response _ _ _ Hauth Hxhr).
      unfold readProp. destruct (getProp (resp_data response) (js "rev"))
        as [v|]; [|reflexivity].
      cbn [ret]. destruct v; reflexivity.
  - intros status fields Hxhr Hnot.
    destruct (save_thrown path data rev w _ Hauth Hxhr) as [x [Hc Hs]].
    rewrite Hs. rewrite (apiCallCatch_generic status fields _ Hnot) in Hc.
    cbn [fst]. congruence.
  - intros response Hxhr.
    destruct (isNullish (resp_data response)) eqn:Hdata.
    + unfold save, bind, getSettings. fold (uploadArgs w path data rev).
      rewrite (apiCall_response _ _ _ Hauth Hxhr). unfold readProp.
      destruct (resp_data response); try discriminate; reflexivity.
    + now rewrite (save_response path data rev w response Hauth Hxhr Hdata).
Qed.

Lemma apiCall_returned (args : ApiArgs) (w w' : World) (response : HttpResponse) :
  apiCall base args w = (Returned response, w') ->
  xhr base (apiRequest args) = inr response /\ w' = called args w.
Proof.
  unfold apiCall, bind, logCall, answer, ret. cbn.
  destruct (oauthAuthorize base) as [x|[]]; [discriminate|].
  destruct (xhr base (apiRequest args)) as [e|r] eqn:Hxhr.
  - intros H. exfalso.
    match type of H with
    | apiCallCatch e ?w0 = _ =>
        destruct (apiCallCatch_throws e w0) as [x Hx]; rewrite H in Hx
    end.
    discriminate.
  - intros H. injection H as -> <-. split; reflexivity.
Qed.

(** ** [stat] *)

(** C5: on an answer whose [.tag] is ["file"], [stat] returns the [rev] of
    the answer when that is a string and an empty record otherwise; on
    ["folder"] it returns [{folder: true}]; on any other string it fails
    with [Error("Bad .tag: ...")], on a [.tag] that is not a string (a
    missing one is [undefined]) with [Error(".tag not found in response")],
    and on a [null] body with a [TypeError].  These errors are the ones this
    backend raises for an answer of the wrong shape; none of these cases
    returns a record. *)
Theorem stat_by_tag (path : jsstring) (w : World) (response : HttpResponse) :
  oauthAuthorize base = Returned tt ->
  xhr base (apiRequest (metadataArgs w path)) = inr response ->
  (getProp (resp_data response) (js ".tag") = Some (JStr (js "file")) ->
   fst (stat base path w)
   = Returned (mkStat (optStringOf (getPropOpt (resp_data response) (js "rev")))
                      None))
  /\ (getProp (resp_data response) (js ".tag") = Some (JStr (js "folder")) ->
      fst (stat base path w) = Returned (mkStat None (Some true)))
  /\ (forall tag,
        getProp (resp_data response) (js ".tag") = Some (JStr tag) ->
        tag <> js "file" -> tag <> js "folder" ->
        fst (stat base path w) = Threw (Error (js "Bad .tag: " ++ tag)))
  /\ (forall v,
        getProp (resp_data response) (js ".tag") = Some v ->
        typeofString v = false ->
        fst (stat base path w) = Threw (Error (js ".tag not found in response")))
  /\ (getProp (resp_data response) (js ".tag") = None ->
      fst (stat base path w) = Threw TypeError).
Proof.
  intros Hauth Hxhr.
  assert (Hstat : stat base path w
    = (tag <- readProp (resp_data response) (js ".tag") ;;
       match tag with
       | JStr tag =>
           if str_eqb tag (js "file") then
             rev <- readProp (resp_data response) (js "rev") ;;
             match rev with
             | JStr rev => ret (mkStat (Some rev) None)
             | _ => ret (mkStat None None)
             end
           else if str_eqb tag (js "folder") then ret (mkStat None (Some true))
           else throw (Error (js "Bad .tag: " ++ tag))
       | _ => throw (Error (js ".tag not found in response"))
       end)%method (called (metadataArgs w path) w)).
  { unfold stat at 1. unfold bind at 1 2. unfold getSettings.
    fold (metadataArgs w path). rewrite (apiCall_response _ _ _ Hauth Hxhr).
    reflexivity. }
  rewrite Hstat. clear Hstat. unfold bind, readProp, getPropOpt.
  repeat split.
  - intros Htag. rewrite Htag. cbn [ret].
    destruct (resp_data response) as [| |b|n|s|items|fields];
      try discriminate; cbn [getProp ret optStringOf].
    + destruct (lookup (js "rev") fields); reflexivity.
  - intros Htag. rewrite Htag. reflexivity.
  - intros tag Htag Hfile Hfolder. rewrite Htag. cbn [ret].
    apply str_eqb_neq in Hfile, Hfolder. rewrite Hfile, Hfolder. reflexivity.
  - intros v Htag Hv. rewrite Htag. cbn [ret].
    destruct v; try reflexivity; discriminate.
  - intros Htag. rewrite Htag. reflexivity.
Qed.

(** C9: a record returned by [stat] either has [folder] set to [true] and
    no [rev], or has no [folder] and as [rev] the [rev] of the answer when
    that is a string (none otherwise); it never carries both. *)
Theorem stat_result_shape (path : jsstring) (w w' : World) (s : StorageFileStat) :
  stat base path w = (Returned s, w') ->
  (stat_folder s = Some true /\ stat_rev s = None)
  \/ (stat_folder s = None
      /\ exists response,
           xhr base (apiRequest (metadataArgs w path)) = inr response
           /\ stat_rev s
              = optStringOf (getPropOpt (resp_data response) (js "rev"))).
Proof.
  unfold stat. unfold bind at 1 2. unfold getSettings.
  fold (metadataArgs w path).
  destruct (apiCall base (metadataArgs w path) w) as [[x|response] w1] eqn:Hcall;
    [discriminate|].
  apply apiCall_returned in Hcall as [Hxhr ->].
  unfold bind, readProp, getPropOpt.
  destruct (getProp (resp_data response) (js ".tag")) as [tag|] eqn:Htag;
    [|discriminate].
  cbn [ret]. destruct tag as [| |b|n|tag|items|fields]; try discriminate.
  destruct (str_eqb tag (js "file")).
  - destruct (getProp (resp_data response) (js "rev")) as [rev|] eqn:Hrev;
      [|discriminate].
    cbn [ret].
    destruct rev; intros H; injection H as <- _; right;
      (split; [reflexivity|]); exists response; rewrite Hrev;
      (split; [assumption | reflexivity]).
  - destruct (str_eqb tag (js "folder")); [|discriminate].
    intros H. injection H as <- _. left. split; reflexivity.
Qed.

(** ** [list] *)

Lemma listEntry_fields (s : AppSettings) (ent : JsVal) (w : World) :
  isNullish ent = false ->
  listEntry toLowerCase s ent w
  = (Returned (if entryOk (entryFields ent)
               then Some (entryItem toLowerCase s (entryFields ent))
               else None), w).
Proof.
  intros Hent. unfold listEntry, entryOk, entryItem, bind, readProp.
  destruct ent as [| |b|n|t|items|fields]; try discriminate;
    cbn [getProp ret entryFields lookup typeofString andb]; try reflexivity.
  destruct (lookup (js "name") fields); cbn [typeofString andb]; try reflexivity.
  destruct (lookup (js "path_display") fields);
    cbn [typeofString andb]; try reflexivity.
  destruct (lookup (js "rev") fields); reflexivity.
Qed.

Lemma listLoop_entries (s : AppSettings) (entries : Datatypes.list JsVal)
      (result : Datatypes.list StorageListItem) (w : World) :
  Forall (fun ent => isNullish ent = false) entries ->
  listLoop toLowerCase s entries result w
  = (Returned (result
               ++ map (entryItem toLowerCase s)
                    (filter entryOk (map entryFields entries))), w).
Proof.
  intros Hall. revert result.
  induction Hall as [|ent entries Hent _ IH]; intros result.
  - cbn. now rewrite app_nil_r.
  - cbn [listLoop]. unfold bind at 1. rewrite (listEntry_fields s ent w Hent).
    cbn [map filter]. destruct (entryOk (entryFields ent)).
    + rewrite IH. cbn [map]. now rewrite <- app_assoc.
    + apply IH.
Qed.

Lemma listLoop_nullish (s : AppSettings)
      (before after : Datatypes.list JsVal) (ent : JsVal)
      (result : Datatypes.list StorageListItem) (w : World) :
  Forall (fun x => isNullish x = false) before ->
  isNullish ent = true ->
  listLoop toLowerCase s (before ++ ent :: after) result w
  = (Threw TypeError, w).
Proof.
  intros Hbefore Hent. revert result.
  induction Hbefore as [|x before Hx _ IH]; intros result.
  - cbn [app listLoop]. unfold bind.
    destruct ent; try discriminate; reflexivity.
  - cbn [app listLoop]. unfold bind at 1. rewrite (listEntry_fields s x w Hx).
    destruct (entryOk (entryFields x)); apply IH.
Qed.

(** C4, the code on a listing of one well-formed entry and one entry
    lacking a required field, in either order.  When the malformed entry is
    an object or a primitive other than [null] and [undefined], it is
    skipped: [list] returns exactly one item, the one of the well-formed
    entry.  When it is [null] or [undefined], it is not skipped: reading its
    [name] raises a [TypeError] and the listing is lost.  The [dir] flag of
    an item is true exactly when the [.tag] of its entry is not ["file"]. *)
Theorem list_malformed_entry (dir : option jsstring) (w : World)
        (response : HttpResponse) (good bad : JsVal) :
  oauthAuthorize base = Returned tt ->
  xhr base (apiRequest (listArgs w dir)) = inr response ->
  wellFormedEntry good ->
  malformedEntry bad ->
  getPropOpt (resp_data response) (js "entries") = JArr [good; bad]
  \/ getPropOpt (resp_data response) (js "entries") = JArr [bad; good] ->
  (isNullish bad = false ->
   fst (list toLowerCase base dir w)
   = Returned [entryItem toLowerCase (settings w) (entryFields good)])
  /\ (isNullish bad = true ->
      fst (list toLowerCase base dir w) = Threw TypeError)
  /\ (item_dir (entryItem toLowerCase (settings w) (entryFields good)) = true
      <-> lookup (js ".tag") (entryFields good) <> JStr (js "file")).
Proof.
  intros Hauth Hxhr [Hgood Hok] Hko Hentries.
  assert (Hlist : fst (list toLowerCase base dir w)
                  = fst (match getPropOpt (resp_data response) (js "entries")
                         with
                         | JArr entries =>
                             listLoop toLowerCase (settings w) entries []
                         | _ => throw (Error (js "Empty response"))
                         end (called (listArgs w dir) w))).
  { unfold list. unfold bind at 1 2. unfold getSettings.
    fold (listArgs w dir). now rewrite (apiCall_response _ _ _ Hauth Hxhr). }
  rewrite Hlist. unfold malformedEntry in Hko.
  refine (conj _ (conj _ _)).
  - intros Hbad.
    destruct Hentries as [-> | ->];
      rewrite listLoop_entries by (repeat constructor; assumption);
      cbn [map filter]; rewrite Hok, Hko; reflexivity.
  - intros Hbad. destruct Hentries as [-> | ->].
    + now rewrite (listLoop_nullish _ [good] [] bad)
        by (repeat constructor; assumption).
    + now rewrite (listLoop_nullish _ [] [good] bad)
        by (repeat constructor; assumption).
  - cbn [entryItem item_dir]. rewrite negb_true_iff. split.
    + intros H E. apply strictEqStr_eq in E. congruence.
    + intros H. destruct (strictEqStr _ _) eqn:E; [|reflexivity].
      apply strictEqStr_eq in E. contradiction.
Qed.

End ApiCalls.

(* ===================================================================== *)
(** * Configuration                                                       *)
(* ===================================================================== *)

Section Configuration.

Import Spec StorageDropbox.

Variable apps : DropboxAppsT.
Variable locale : LocaleT.
Variable base : StorageBaseT.

Lemma substr_one (c : Z) (s : jsstring) : substr (c :: s) 1 = s.
Proof. reflexivity. Qed.

Lemma fixConfigFolder_sanitizeFolder (folder : jsstring) :
  fixConfigFolder folder = sanitizeFolder folder.
Proof.
  unfold fixConfigFolder, sanitizeFolder, backslashesToSlashes, stripLeadingSlash.
  destruct (trim _) as [|c rest]; [reflexivity|].
  destruct (c =? slash); [apply substr_one | reflexivity].
Qed.

Lemma isStr_eq (m : MaybeString) (s : jsstring) :
  isStr m s = true <-> m = Str s.
Proof.
  destruct m as [| |t]; simpl; split; try discriminate.
  - intros H. apply str_eqb_eq in H. congruence.
  - intros H. injection H as ->. apply str_eqb_refl.
Qed.

Lemma isBuiltInKey_test (key : MaybeString) :
  isStr key (id (AppFolder apps)) || isStr key (id (FullDropbox apps)) = true
  <-> isBuiltInKey apps key.
Proof.
  unfold isBuiltInKey. rewrite orb_true_iff, !isStr_eq. reflexivity.
Qed.

(** C7: with a key equal to either built-in application identifier,
    [applyConfig] fails with [Error("Bad key")] and leaves the world as it
    was: no setting is changed and no call is made, a network call least of
    all.  With any other configuration it makes one [batchSet] call and
    nothing else, after which key and secret are the given ones and the
    folder is the given one sanitized (backslashes to slashes, white space
    trimmed, leading slash stripped). *)
Theorem applyConfig_spec (config : Config) (w : World) :
  (isBuiltInKey apps (cfg_key config) ->
   applyConfig apps config w = (Threw (Error (js "Bad key")), w))
  /\ (~ isBuiltInKey apps (cfg_key config) ->
      applyConfig apps config w
      = (Returned tt,
         mkWorld (mkAppSettings (cfg_key config) (cfg_secret config)
                                (sanitizeField (cfg_folder config)))
                 (calls w ++ [CallBatchSet]))).
Proof.
  unfold applyConfig. split; intros H.
  - apply isBuiltInKey_test in H. rewrite H. reflexivity.
  - destruct (isStr (cfg_key config) (id (AppFolder apps))
              || isStr (cfg_key config) (id (FullDropbox apps))) eqn:E.
    + apply isBuiltInKey_test in E. contradiction.
    + unfold batchSet, bind, logCall, assign. cbn [settings calls].
      do 3 f_equal.
      destruct (cfg_folder config) as [| |[|c f]]; try reflexivity.
      cbn [sanitizeField]. now rewrite fixConfigFolder_sanitizeFolder.
Qed.

Lemma logout_swallowed (w : World) :
  catchNoop (logout base) w
  = (Returned tt, mkWorld (settings w) (calls w ++ [revokeCall])).
Proof.
  unfold catchNoop, logout, bind, logCall, answer, revokeCall.
  destruct (oauthRevokeToken
              base (js "https://api.dropboxapi.com/2/auth/token/revoke") true);
    reflexivity.
Qed.

(** C8: [applySetting] with key ["link"] and value ["app"], ["full"] or
    ["custom"], or with key ["key"] or ["secret"], writes the one setting
    concerned and makes the logout call, and returns normally whatever the
    logout answers; with key ["folder"] it stores the sanitized value and
    makes no call; with key ["link"] and any other value it changes
    nothing. *)
Theorem applySetting_spec (value : jsstring) (w : World) :
  applySetting apps locale base (js "link") (js "app") w
  = (Returned tt,
     mkWorld (withAppKey (settings w) (id (AppFolder apps)))
             (calls w ++ [revokeCall]))
  /\ applySetting apps locale base (js "link") (js "full") w
     = (Returned tt,
        mkWorld (withAppKey (settings w) (id (FullDropbox apps)))
                (calls w ++ [revokeCall]))
  /\ applySetting apps locale base (js "link") (js "custom") w
     = (Returned tt,
        mkWorld (withAppKey (settings w)
                            (js "(" ++ dropboxAppKeyHint locale ++ js ")"))
                (calls w ++ [revokeCall]))
  /\ applySetting apps locale base (js "key") value w
     = (Returned tt,
        mkWorld (withAppKey (settings w) value) (calls w ++ [revokeCall]))
  /\ applySetting apps locale base (js "secret") value w
     = (Returned tt,
        mkWorld (withSecret (settings w) value) (calls w ++ [revokeCall]))
  /\ applySetting apps locale base (js "folder") value w
     = (Returned tt,
        mkWorld (withFolderValue (settings w) (sanitizeFolder value)) (calls w))
  /\ (value <> js "app" -> value <> js "full" -> value <> js "custom" ->
      applySetting apps locale base (js "link") value w = (Returned tt, w)).
Proof.
  assert (Hlogout : forall (set : M unit) (s' : AppSettings),
             set w = (Returned tt, mkWorld s' (calls w)) ->
             bind set (fun _ => catchNoop (logout base)) w
             = (Returned tt, mkWorld s' (calls w ++ [revokeCall]))).
  { intros set s' Hset. unfold bind. rewrite Hset.
    now rewrite logout_swallowed. }
  refine (conj _ (conj _ (conj _ (conj _ (conj _ (conj _ _)))))).
  - now apply Hlogout.
  - now apply Hlogout.
  - now apply Hlogout.
  - now apply Hlogout.
  - now apply Hlogout.
  - unfold applySetting. cbn. unfold setFolder, assign.
    now rewrite fixConfigFolder_sanitizeFolder.
  - intros Happ Hfull Hcustom. unfold applySetting.
    apply str_eqb_neq in Happ, Hfull, Hcustom.
    change (str_eqb (js "link") (js "link")) with true. cbv iota.
    now rewrite Happ, Hfull, Hcustom.
Qed.

Example applyConfig_built_in_key :
  applyConfig sampleApps
              (mkConfig (Str (js "fulldropboxkey")) (Str (js "s")) Undefined)
              emptyWorld
  = (Threw (Error (js "Bad key")), emptyWorld).
Proof. reflexivity. Qed.

Example applyConfig_custom_key :
  applyConfig sampleApps
              (mkConfig (Str (js "mykey")) (Str (js "s")) (Str (js " \Vault ")))
              emptyWorld
  = (Returned tt,
     mkWorld (mkAppSettings (Str (js "mykey")) (Str (js "s"))
                            (Str (js "Vault")))
             [CallBatchSet]).
Proof. reflexivity. Qed.

Example applySetting_failing_logout :
  applySetting sampleApps sampleLocale failingRevoke (js "secret") (js "s3")
               emptyWorld
  = (Returned tt,
     mkWorld (mkAppSettings Undefined (Str (js "s3")) Undefined) [revokeCall]).
Proof. reflexivity. Qed.

End Configuration.

(* ===================================================================== *)
(** * The workspace tag list                                              *)
(* ===================================================================== *)

Section WorkspaceTags.

Import Spec Workspace.

Variable toLowerCase : jsstring -> jsstring.

Lemma setHas_In (s : list jsstring) (x : jsstring) :
  setHas s x = true <-> In x s.
Proof.
  unfold setHas. rewrite existsb_exists. split.
  - intros [y [Hy E]]. apply str_eqb_eq in E. now subst.
  - intros H. exists x. split; [assumption | apply str_eqb_refl].
Qed.





Lemma tagsChanged_tags (w : WorkspaceT) : tags (tagsChanged w) = tags w.
Proof. unfold tagsChanged. destruct (tags w); reflexivity. Qed.




End WorkspaceTags.

(* ===================================================================== *)
(** * The theorems at concrete inputs                                     *)
(* ===================================================================== *)

Section Instances.

Import Spec StorageDropbox.

(** A save without revision against a remote that answers with the
    revision ["xyz2"]. *)
Lemma save_modes_witness :
  oauthAuthorize (remoteAt (js "/db.kdbx") (js "xyz") (js "xyz2")) = Returned tt
  /\ fst (save (remoteAt (js "/db.kdbx") (js "xyz") (js "xyz2"))
               (js "/db.kdbx") [1; 2; 3] None emptyWorld)
     = Returned (mkSaveResult (Some (js "xyz2"))).
Proof.
  split; [reflexivity|].
  exact (proj2 (proj2 (proj2
           (save_modes (remoteAt (js "/db.kdbx") (js "xyz") (js "xyz2"))
                       (js "/db.kdbx") [1; 2; 3] None emptyWorld eq_refl)))
           (mkHttpResponse 200 (JObj [(js "rev", JStr (js "xyz2"))]) [])
           eq_refl).
Defined.

(** The round trip under the root ["a//b"]. *)
Lemma path_round_trip_doubled_slash_root_witness :
  toRelPath asciiLower (withFolder (js "a//b"))
            (toFullPath (withFolder (js "a//b")) (js "db.kdbx"))
  = js "/a/b/db.kdbx"
  /\ toFullPath (withFolder (js "a//b"))
                (toRelPath asciiLower (withFolder (js "a//b"))
                           (toFullPath (withFolder (js "a//b"))
                                       (js "db.kdbx")))
     = js "/a/b/a/b/db.kdbx".
Proof.
  split; [reflexivity|].
  exact (proj2 (proj2 (proj2 (proj2 (proj2
           (path_round_trip_doubled_slash_root
              asciiLower asciiLower_lowersAscii)))))).
Defined.

(** The round trip at the root ["My/Vault"], on a path with doubled
    slashes. *)
Lemma path_round_trip_witness :
  toRelPath asciiLower (withFolder (js "My/Vault"))
            (toFullPath (withFolder (js "My/Vault")) (js "//sub//db.kdbx"))
  = js "/sub/db.kdbx".
Proof.
  apply (path_round_trip asciiLower (js "My/Vault") (js "//sub//db.kdbx")
                         asciiLower_keepsSlashes).
  - discriminate.
  - reflexivity.
Defined.

(** A refusal of the not-found shape, status 409. *)
Lemma apiCall_error_mapping_witness :
  xhr (refusing notFoundError)
      (apiRequest (metadataArgs emptyWorld (js "/db.kdbx")))
  = inl notFoundError
  /\ fst (apiCall (refusing notFoundError)
                  (metadataArgs emptyWorld (js "/db.kdbx")) emptyWorld)
     = Threw StorageFileNotFoundError.
Proof.
  split; [reflexivity|].
  apply (proj1 (apiCall_error_mapping (refusing notFoundError)
                  (metadataArgs emptyWorld (js "/db.kdbx")) emptyWorld
                  notFoundError eq_refl eq_refl)).
  exists [(js ".tag", JStr (js "not_found"))]. split; reflexivity.
Defined.

(** A listing whose first entry is [null]: the well-formed entry after it
    is lost with the listing. *)
Lemma list_malformed_entry_witness :
  wellFormedEntry goodEntry
  /\ malformedEntry JNull
  /\ fst (list asciiLower
               (answering (JObj [(js "entries", JArr [JNull; goodEntry])]))
               None emptyWorld)
     = Threw TypeError.
Proof.
  split; [split; reflexivity|]. split; [reflexivity|].
  exact (proj1 (proj2
           (list_malformed_entry
              asciiLower
              (answering (JObj [(js "entries", JArr [JNull; goodEntry])]))
              None emptyWorld
              (mkHttpResponse
                 200 (JObj [(js "entries", JArr [JNull; goodEntry])]) [])
              goodEntry JNull
              eq_refl eq_refl (conj eq_refl eq_refl) eq_refl
              (or_intror eq_refl)))
           eq_refl).
Defined.

(** The sample listing, whose malformed entry is an object: one item comes
    back. *)
Example list_skips_object_without_path :
  fst (list asciiLower (answering sampleListing) None emptyWorld)
  = Returned [mkListItem (js "db.kdbx") (js "/db.kdbx") (Some (js "abc"))
                         false].
Proof. reflexivity. Qed.

(** An answer tagged ["symlink"]. *)
Lemma stat_by_tag_witness :
  fst (stat (answering (JObj [(js ".tag", JStr (js "symlink"))]))
            (js "/db.kdbx") emptyWorld)
  = Threw (Error (js "Bad .tag: symlink")).
Proof.
  apply (proj1 (proj2 (proj2
           (stat_by_tag (answering (JObj [(js ".tag", JStr (js "symlink"))]))
                        (js "/db.kdbx") emptyWorld
                        (mkHttpResponse 200
                           (JObj [(js ".tag", JStr (js "symlink"))]) [])
                        eq_refl eq_refl)))
           (js "symlink") eq_refl); discriminate.
Defined.

(** The record returned for a file at revision ["abc"]. *)
Lemma stat_result_shape_witness :
  (stat_folder (mkStat (Some (js "abc")) None) = Some true
   /\ stat_rev (mkStat (Some (js "abc")) None) = None)
  \/ (stat_folder (mkStat (Some (js "abc")) None) = None
      /\ exists response,
           xhr (answering (JObj [(js ".tag", JStr (js "file"));
                                 (js "rev", JStr (js "abc"))]))
               (apiRequest (metadataArgs emptyWorld (js "/db.kdbx")))
           = inr response
           /\ stat_rev (mkStat (Some (js "abc")) None)
              = optStringOf (getPropOpt (resp_data response) (js "rev"))).
Proof.
  apply (stat_result_shape
           (answering (JObj [(js ".tag", JStr (js "file"));
                             (js "rev", JStr (js "abc"))]))
           (js "/db.kdbx") emptyWorld
           (called (metadataArgs emptyWorld (js "/db.kdbx")) emptyWorld)).
  reflexivity.
Defined.

(** Five code units, three of them at or above [0x7f]. *)
Lemma encodeJsonHttpHeader_ascii_witness :
  encodeJsonHttpHeader [97; 233; 8364; 126; 127]
  = js "a\u00e9\u20ac~\u007f".
Proof.
  rewrite (proj1 (encodeJsonHttpHeader_ascii
                    (uploadArgs emptyWorld [47; 233] [] None)
                    [(js "path", JStr [47; 233]); (js "mode", overwriteMode)]
                    [97; 233; 8364; 126; 127]
                    ltac:(repeat constructor; unfold isCodeUnit; lia)
                    ltac:(cbn; repeat split; repeat constructor;
                          unfold isCodeUnit; lia)
                    eq_refl)).
  reflexivity.
Defined.


(** ** Further behaviour at the edges *)

Example save_empty_rev_overwrites :
  writeMode (Some []) = overwriteMode
  /\ writeMode (Some (js "abc")) = updateMode (js "abc").
Proof. split; reflexivity. Qed.

Example toRelPath_unconfigured :
  toRelPath asciiLower (mkAppSettings Undefined Undefined Undefined)
            (js "db.kdbx")
  = js "db.kdbx".
Proof. reflexivity. Qed.

Example stat_null_body :
  fst (stat (answering JNull) (js "/db.kdbx") emptyWorld) = Threw TypeError.
Proof. reflexivity. Qed.

Example header_of_upload :
  headers (apiRequest (uploadArgs emptyWorld [47; 233] [] (Some (js "a1"))))
  = [(js "Dropbox-API-Arg",
      js "{" ++ [34] ++ js "path" ++ [34] ++ js ":" ++ [34] ++ js "/\u00e9"
         ++ [34] ++ js "," ++ [34] ++ js "mode" ++ [34] ++ js ":{" ++ [34]
         ++ js ".tag" ++ [34] ++ js ":" ++ [34] ++ js "update" ++ [34]
         ++ js "," ++ [34] ++ js "update" ++ [34] ++ js ":" ++ [34]
         ++ js "a1" ++ [34] ++ js "}}")].
Proof. reflexivity. Qed.

Example fixConfigFolder_sample :
  fixConfigFolder (js "  \Vault\sub ") = js "Vault/sub".
Proof. reflexivity. Qed.

Example save_null_body :
  fst (save (answering JNull) (js "/db.kdbx") [1; 2; 3] None emptyWorld)
  = Threw TypeError.
Proof. reflexivity. Qed.

(** A filter text with accented capitals (U+00C9, U+00C0), under a
    conversion that knows them. *)
Example prepareFilter_accented :
  Workspace.textLowerParts
    (Workspace.prepareFilter
       latin1Lower
       (Workspace.mkFilter
          (Some (js "CAF" ++ [201; 32; 192] ++ js " la Carte")) None None
          [] None None [] false))
  = Some [js "caf" ++ [233]; [224]; js "la"; js "carte"].
Proof. reflexivity. Qed.

(** A tag that contains a comma: the array of one tag ["a,b"] and the list
    of the two tags ["a"] and ["b"] read alike when joined, so the second
    update leaves the array as it was. *)
Example updateTags_joined_alike :
  Workspace.tags
    (Workspace.updateTags asciiLower
       [Workspace.mkFile [Workspace.mkEntry (Some [js "a"; js "b"])]]
       (Workspace.updateTags asciiLower
          [Workspace.mkFile [Workspace.mkEntry (Some [js "a,b"])]]
          Workspace.initial))
  = [js "a,b"].
Proof. reflexivity. Qed.

End Instances.

(* ===================================================================== *)
(** * Further properties of the data operations                           *)
(* ===================================================================== *)

Section DataOperations.

Import Spec StorageDropbox.

Variable toLowerCase : jsstring -> jsstring.
Variable base : StorageBaseT.

Lemma apiCall_unauthorized (args : ApiArgs) (w : World) (e : Exn) :
  oauthAuthorize base = Threw e ->
  apiCall base args w = (Threw e, authorizing w).
Proof.
  intros Hauth. unfold apiCall, bind, logCall, answer. cbn.
  rewrite Hauth. reflexivity.
Qed.

(** When authorization fails, every data operation fails with the error of
    the authorization, and the transport is never called: the only call made
    is the authorization itself. *)
Theorem unauthorized_sends_nothing
        (e : Exn) (path : jsstring) (data : Datatypes.list Z)
        (rev dir : option jsstring) (w : World) :
  oauthAuthorize base = Threw e ->
  stat base path w = (Threw e, authorizing w)
  /\ save base path data rev w = (Threw e, authorizing w)
  /\ list toLowerCase base dir w = (Threw e, authorizing w)
  /\ remove base path w = (Threw e, authorizing w)
  /\ mkdir base path w = (Threw e, authorizing w).
Proof.
  intros Hauth.
  unfold stat, save, list, remove, mkdir.
  repeat (unfold bind at 1); unfold getSettings.
  rewrite !(apiCall_unauthorized _ _ _ Hauth). repeat split.
Qed.

Lemma listEntry_world (s : AppSettings) (ent : JsVal) (w : World) :
  snd (listEntry toLowerCase s ent w) = w.
Proof.
  destruct (isNullish ent) eqn:E.
  - destruct ent; try discriminate; reflexivity.
  - now rewrite listEntry_fields.
Qed.

Lemma listLoop_world (s : AppSettings) (entries : Datatypes.list JsVal)
      (result : Datatypes.list StorageListItem) (w : World) :
  snd (listLoop toLowerCase s entries result w) = w.
Proof.
  revert result. induction entries as [|ent entries IH]; intros result.
  - reflexivity.
  - cbn [listLoop]. unfold bind.
    pose proof (listEntry_world s ent w) as Hw.
    destruct (listEntry toLowerCase s ent w) as [[x|[item|]] w1];
      cbn [snd] in Hw; subst w1.
    + reflexivity.
    + apply IH.
    + apply IH.
Qed.

(** What an operation leaves behind when the executor returns or throws:
    the world of the executor, if the rest of the operation keeps it. *)
Lemma after_apiCall {A} (args : ApiArgs) (w : World)
      (k : HttpResponse -> M A) :
  oauthAuthorize base = Returned tt ->
  (forall response w1, snd (k response w1) = w1) ->
  snd (bind (apiCall base args) k w) = called args w.
Proof.
  intros Hauth Hk. unfold bind.
  destruct (xhr base (apiRequest args)) as [e|response] eqn:Hxhr.
  - rewrite (apiCall_thrown _ args w e Hauth Hxhr).
    pose proof (apiCallCatch_world e (called args w)) as Hw.
    destruct (apiCallCatch_throws e (called args w)) as [x Hx].
    destruct (apiCallCatch e (called args w)) as [o w1].
    cbn [fst snd] in *. now subst.
  - rewrite (apiCall_response _ args w response Hauth Hxhr). apply Hk.
Qed.

(** When authorization succeeds, every data operation makes exactly two
    calls, the authorization and one request to the transport, whatever the
    transport answers; it never repeats a request and never writes a
    setting. *)
Theorem one_request_per_operation
        (path : jsstring) (data : Datatypes.list Z)
        (rev dir : option jsstring) (w : World) :
  oauthAuthorize base = Returned tt ->
  snd (stat base path w) = called (metadataArgs w path) w
  /\ snd (save base path data rev w) = called (uploadArgs w path data rev) w
  /\ snd (list toLowerCase base dir w) = called (listArgs w dir) w
  /\ snd (remove base path w) = called (removeArgs w path) w
  /\ snd (mkdir base path w) = called (mkdirArgs w path) w.
Proof.
  intros Hauth.
  refine (conj _ (conj _ (conj _ (conj _ _))));
    (unfold stat, save, list, remove, mkdir; unfold bind at 1;
     unfold getSettings; apply (after_apiCall _ _ _ Hauth);
     intros response w1).
  - unfold bind, readProp.
    destruct (getProp (resp_data response) (js ".tag")) as [[| |b|n|t|l|f]|];
      try reflexivity.
    cbn [ret]. destruct (str_eqb t (js "file")).
    + destruct (getProp (resp_data response) (js "rev")) as [[| |b|n|r|l|f]|];
        reflexivity.
    + destruct (str_eqb t (js "folder")); reflexivity.
  - unfold bind, readProp.
    destruct (getProp (resp_data response) (js "rev")) as [[| |b|n|r|l|f]|];
      reflexivity.
  - destruct (getPropOpt (resp_data response) (js "entries"));
      try reflexivity.
    apply listLoop_world.
  - reflexivity.
  - reflexivity.
Qed.

(** A failure of the transport that carries no HTTP status (anything thrown
    that is not an [HttpRequestError]) is reported with status 0, unless it
    has the not-found shape; a thrown [null] or [undefined] makes the
    [catch] block itself fail with a [TypeError]. *)
Theorem apiCall_failure_without_status
        (args : ApiArgs) (w : World) (v : JsVal) :
  oauthAuthorize base = Returned tt ->
  xhr base (apiRequest args) = inl (ThrownValue v) ->
  (isNullish v = true -> fst (apiCall base args w) = Threw TypeError)
  /\ (isNullish v = false ->
      ~ notFoundShaped (ThrownValue v) ->
      fst (apiCall base args w)
      = Threw (Error (js "API error, status code 0"))).
Proof.
  intros Hauth Hxhr. rewrite (apiCall_thrown _ args w _ Hauth Hxhr).
  unfold apiCallCatch, bind, thrownProp, readProp. split.
  - intros Hv. destruct v; try discriminate; reflexivity.
  - intros Hv Hnot.
    destruct (getProp v (js "path")) as [p|] eqn:Hp;
      [|destruct v; discriminate].
    cbn [ret statusOf].
    destruct p as [| |b|n|s|items|pathFields];
      cbn [truthy typeofObject andb getPropOpt getProp]; try reflexivity.
    + destruct b; reflexivity.
    + destruct (negb (n =? 0)); reflexivity.
    + destruct (negb (str_eqb s [])); reflexivity.
    + destruct (strictEqStr (lookup (js ".tag") pathFields) (js "not_found"))
        eqn:E; [|reflexivity].
      exfalso. apply Hnot. exists pathFields. split; [exact Hp|].
      now apply strictEqStr_eq.
Qed.

(** [remove] and [mkdir] do not read the answer: they return normally for
    every answered request, whatever its body, and a refusal of the
    not-found shape surfaces as [StorageFileNotFoundError]. *)
Theorem remove_mkdir_outcome (path : jsstring) (w : World) :
  oauthAuthorize base = Returned tt ->
  (forall response,
     xhr base (apiRequest (removeArgs w path)) = inr response ->
     fst (remove base path w) = Returned tt)
  /\ (forall response,
        xhr base (apiRequest (mkdirArgs w path)) = inr response ->
        fst (mkdir base path w) = Returned tt)
  /\ (forall e,
        xhr base (apiRequest (removeArgs w path)) = inl e ->
        notFoundShaped e ->
        fst (remove base path w) = Threw StorageFileNotFoundError)
  /\ (forall e,
        xhr base (apiRequest (mkdirArgs w path)) = inl e ->
        notFoundShaped e ->
        fst (mkdir base path w) = Threw StorageFileNotFoundError).
Proof.
  intros Hauth.
  refine (conj _ (conj _ (conj _ _)));
    unfold remove, mkdir; unfold bind at 1; unfold getSettings;
    fold (removeArgs w path); fold (mkdirArgs w path); unfold bind.
  - intros response Hxhr.
    now rewrite (apiCall_response _ _ w response Hauth Hxhr).
  - intros response Hxhr.
    now rewrite (apiCall_response _ _ w response Hauth Hxhr).
  - intros e Hxhr Hnf. rewrite (apiCall_thrown _ _ w e Hauth Hxhr).
    now rewrite apiCallCatch_not_found.
  - intros e Hxhr Hnf. rewrite (apiCall_thrown _ _ w e Hauth Hxhr).
    now rewrite apiCallCatch_not_found.
Qed.

(** ** Listings in general *)

(** A listing none of whose entries is [null] or [undefined] comes back as
    the items of its well-formed entries, in the order of the listing. *)
Theorem list_keeps_well_formed_entries
        (dir : option jsstring) (w : World) (response : HttpResponse)
        (entries : Datatypes.list JsVal) :
  oauthAuthorize base = Returned tt ->
  xhr base (apiRequest (listArgs w dir)) = inr response ->
  getPropOpt (resp_data response) (js "entries") = JArr entries ->
  Forall (fun ent => isNullish ent = false) entries ->
  fst (list toLowerCase base dir w)
  = Returned (map (entryItem toLowerCase (settings w))
                  (filter entryOk (map entryFields entries))).
Proof.
  intros Hauth Hxhr Hentries Hall.
  unfold list. unfold bind at 1 2. unfold getSettings.
  fold (listArgs w dir). rewrite (apiCall_response _ _ _ _ Hauth Hxhr).
  rewrite Hentries. now rewrite listLoop_entries.
Qed.

(** An answer without an array of entries, a [null] body included, makes
    [list] fail with [Error("Empty response")]. *)
Theorem list_without_entries
        (dir : option jsstring) (w : World) (response : HttpResponse) :
  oauthAuthorize base = Returned tt ->
  xhr base (apiRequest (listArgs w dir)) = inr response ->
  (forall entries,
     getPropOpt (resp_data response) (js "entries") <> JArr entries) ->
  fst (list toLowerCase base dir w) = Threw (Error (js "Empty response")).
Proof.
  intros Hauth Hxhr Hno.
  unfold list. unfold bind at 1 2. unfold getSettings.
  fold (listArgs w dir). rewrite (apiCall_response _ _ _ _ Hauth Hxhr).
  destruct (getPropOpt (resp_data response) (js "entries")) as [| |b|n|s|l|f];
    try reflexivity.
  exfalso. now apply (Hno l).
Qed.

(** An entry that is [null] or [undefined] aborts the listing: [list] fails
    with a [TypeError], whatever the entries before and after it. *)
Theorem list_null_entry_throws
        (dir : option jsstring) (w : World) (response : HttpResponse)
        (before after : Datatypes.list JsVal) (ent : JsVal) :
  oauthAuthorize base = Returned tt ->
  xhr base (apiRequest (listArgs w dir)) = inr response ->
  getPropOpt (resp_data response) (js "entries")
  = JArr (before ++ ent :: after) ->
  Forall (fun x => isNullish x = false) before ->
  isNullish ent = true ->
  fst (list toLowerCase base dir w) = Threw TypeError.
Proof.
  intros Hauth Hxhr Hentries Hbefore Hent.
  unfold list. unfold bind at 1 2. unfold getSettings.
  fold (listArgs w dir). rewrite (apiCall_response _ _ _ _ Hauth Hxhr).
  rewrite Hentries. now rewrite listLoop_nullish.
Qed.

End DataOperations.

(* ===================================================================== *)
(** * Further properties of paths, the encoder and the configuration      *)
(* ===================================================================== *)

Section PathsAndConfiguration.

Import UrlFormat Spec StorageDropbox.

Variable toLowerCase : jsstring -> jsstring.

(** [toRelPath] strips the root folder in whatever letter case the backend
    spells it, the engine's case tables deciding what the same letters are:
    a backend path made of a spelling [r'] of the root, a slash and [t]
    resolves to [t] with a leading slash and slashes fixed, when [r'] and the
    configured root [r] are converted to the same text by [toLowerCase] and
    have the same length; so does such a path with a slash in front, when
    the configured root does not itself start with a slash. *)
Theorem toRelPath_strips_root_any_case (r r' t : jsstring) :
  keepsSlashes toLowerCase ->
  r <> [] ->
  toLowerCase r' = toLowerCase r ->
  Js.length r' = Js.length r ->
  toRelPath toLowerCase (withFolder r) (r' ++ slash :: t)
  = fixSlashes (slash :: t)
  /\ (startsWithSlash r = false ->
      toRelPath toLowerCase (withFolder r) (slash :: r' ++ slash :: t)
      = fixSlashes (slash :: t)).
Proof.
  intros Hk Hne Hcase Hlen.
  destruct (toRelPath_strips_root toLowerCase r r' (slash :: t)
                                  Hk Hne Hcase Hlen)
    as [H0 H1]; [eauto|].
  rewrite fixSlashes_slash_slash in H0, H1. now split.
Qed.

(** [fixSlashes] of a string with one more unit in front, from [fixSlashes]
    of the string. *)
Lemma fixSlashes_cons (x : Z) (z : jsstring) :
  fixSlashes (x :: z)
  = if x =? slash
    then (if startsWithSlash (fixSlashes z) then fixSlashes z
          else slash :: fixSlashes z)
    else x :: fixSlashes z.
Proof.
  destruct (Z.eqb_spec x slash) as [->|Nx].
  - destruct z as [|y z]; [reflexivity|].
    destruct (fixSlashes_head y z) as [u Hu]. rewrite Hu. cbn [startsWithSlash].
    destruct (Z.eqb_spec y slash) as [->|Ny].
    + now rewrite fixSlashes_slash_slash.
    + rewrite fixSlashes_slash_other by assumption. now rewrite Hu.
  - now apply fixSlashes_other.
Qed.

Lemma fixSlashes_app_congr (a z1 z2 : jsstring) :
  fixSlashes z1 = fixSlashes z2 -> fixSlashes (a ++ z1) = fixSlashes (a ++ z2).
Proof.
  intros H. induction a as [|x a IH]; [exact H|].
  cbn [app]. now rewrite !fixSlashes_cons, IH.
Qed.

(** The way back and forth again: under a root folder without doubled
    slash, the logical path [toRelPath] gives for a backend path made by
    [toFullPath] resolves to that same backend path. *)
Theorem toFullPath_of_listed_path (r p : jsstring) :
  keepsSlashes toLowerCase ->
  r <> [] ->
  noDoubleSlash r = true ->
  toFullPath (withFolder r)
             (toRelPath toLowerCase (withFolder r)
                        (toFullPath (withFolder r) p))
  = toFullPath (withFolder r) p.
Proof.
  intros Hk Hne Hr.
  rewrite (toRelPath_toFullPath_normalize toLowerCase r p Hk Hne Hr).
  destruct r as [|c r]; [contradiction|].
  unfold toFullPath, withFolder, normalize. cbn [dropboxFolder app].
  change (slash :: c :: r ++ slash :: fixSlashes (slash :: p))
    with ((slash :: c :: r) ++ slash :: fixSlashes (slash :: p)).
  change (slash :: c :: r ++ slash :: p) with ((slash :: c :: r) ++ slash :: p).
  apply fixSlashes_app_congr.
  destruct (fixSlashes_head slash p) as [u Hu]. rewrite Hu.
  rewrite fixSlashes_slash_slash, <- Hu. apply fixSlashes_idempotent.
Qed.

(** ** The encoder *)

Lemma encodeJsonHttpHeader_below_127 (json : jsstring) :
  Forall isCodeUnit json ->
  Forall (fun c => 0 <= c < 127) (encodeJsonHttpHeader json).
Proof.
  intros Hjson. rewrite encodeJsonHttpHeader_escapeNonAscii by assumption.
  unfold escapeNonAscii. induction Hjson as [|c json Hc _ IH]; [constructor|].
  cbn [flat_map]. apply Forall_app. split; [|exact IH].
  unfold isCodeUnit in Hc. destruct (Z.leb_spec 127 c).
  - pose proof (unicodeEscape_printable c) as Hp.
    revert Hp. apply Forall_impl. unfold isPrintableAscii. lia.
  - constructor; [lia | constructor].
Qed.

Lemma encodeJsonHttpHeader_ascii_fixed (json : jsstring) :
  Forall (fun c => c < 127) json -> encodeJsonHttpHeader json = json.
Proof.
  unfold encodeJsonHttpHeader. induction 1 as [|c json Hc _ IH]; [reflexivity|].
  cbn [flat_map]. rewrite IH.
  destruct (Z.leb_spec 127 c); [lia | reflexivity].
Qed.

(** The encoder leaves a text without code units at or above [0x7f] as it
    is, and its output is such a text: encoding an encoded header again
    changes nothing.  Its output is longer than its input by five code units
    for each code unit it escapes. *)
Theorem encodeJsonHttpHeader_idempotent (json : jsstring) :
  Forall isCodeUnit json ->
  (Forall (fun c => c < 127) json -> encodeJsonHttpHeader json = json)
  /\ encodeJsonHttpHeader (encodeJsonHttpHeader json)
     = encodeJsonHttpHeader json
  /\ Js.length (encodeJsonHttpHeader json)
     = Js.length json
       + 5 * Js.length (filter (fun c => 127 <=? c) json).
Proof.
  intros Hjson. split; [apply encodeJsonHttpHeader_ascii_fixed|]. split.
  - apply encodeJsonHttpHeader_ascii_fixed.
    pose proof (encodeJsonHttpHeader_below_127 json Hjson) as H.
    revert H. apply Forall_impl. lia.
  - rewrite encodeJsonHttpHeader_escapeNonAscii by assumption.
    unfold escapeNonAscii, Js.length. clear Hjson.
    induction json as [|c json IH]; [reflexivity|].
    cbn [flat_map filter]. rewrite length_app.
    destruct (127 <=? c); cbn [List.length unicodeEscape] in *; lia.
Qed.

Lemma encodeJsonHttpHeader_idempotent_witness :
  encodeJsonHttpHeader (encodeJsonHttpHeader [97; 233; 8364])
  = encodeJsonHttpHeader [97; 233; 8364].
Proof.
  apply (proj1 (proj2 (encodeJsonHttpHeader_idempotent
                         [97; 233; 8364]
                         ltac:(repeat constructor; unfold isCodeUnit; lia)))).
Defined.

(** ** Credentials *)

Section WithApps.

Variable apps : DropboxAppsT.
Variable features : FeaturesT.
Variable labels : LabelsT.
Variable locale : LocaleT.
Variable base : StorageBaseT.

Lemma getKey_custom (k : jsstring) (s : AppSettings) :
  dropboxAppKey s = Str k -> k <> [] -> getKey apps s = k.
Proof.
  intros Hk Hne. unfold getKey. rewrite Hk.
  destruct k; [contradiction | reflexivity].
Qed.

Lemma getKey_withAppKey (v : jsstring) (s : AppSettings) :
  v <> [] -> getKey apps (withAppKey s v) = v.
Proof. intros Hv. now apply getKey_custom. Qed.

(** After [applyConfig] has accepted a key without a space and a non-empty
    secret, the backend no longer asks for its configuration: the key is
    valid, self-hosted or not, and [getSecret] is the secret given. *)
Theorem applyConfig_then_configured (config : Config) (k sec : jsstring)
        (w : World) :
  cfg_key config = Str k ->
  cfg_secret config = Str sec ->
  plainKey k ->
  sec <> [] ->
  ~ isBuiltInKey apps (Str k) ->
  fst (applyConfig apps config w) = Returned tt
  /\ getKey apps (settings (snd (applyConfig apps config w))) = k
  /\ getSecret apps (settings (snd (applyConfig apps config w))) = Str sec
  /\ needShowOpenConfig apps features
                        (settings (snd (applyConfig apps config w)))
     = false.
Proof.
  intros Hk Hsec [Hne Hspace] Hsecne Hnot.
  assert (Happ : str_eqb k (id (AppFolder apps)) = false).
  { apply str_eqb_neq. intros E. apply Hnot. left. now rewrite E. }
  assert (Hfull : str_eqb k (id (FullDropbox apps)) = false).
  { apply str_eqb_neq. intros E. apply Hnot. right. now rewrite E. }
  unfold applyConfig. rewrite Hk, Hsec. cbn [isStr].
  rewrite Happ, Hfull. cbn [orb].
  unfold batchSet, bind, logCall, assign. cbn [fst snd settings].
  set (s' := mkAppSettings _ _ _).
  assert (Hkey : getKey apps s' = k) by (apply getKey_custom; auto).
  assert (Hsecret : getSecret apps s' = Str sec).
  { unfold getSecret. rewrite Hkey, Happ, Hfull. reflexivity. }
  repeat split; auto.
  unfold needShowOpenConfig, isValidKey. rewrite Hsecret, Hkey, Happ, Hfull.
  destruct sec; [contradiction|].
  apply str_eqb_neq in Hne. rewrite Hne.
  apply Z.ltb_lt in Hspace. rewrite Hspace. reflexivity.
Qed.

(** On a self-hosted installation the built-in keys are not valid: as long
    as no key is configured, or the configured key is a built-in one, the
    backend asks for its configuration. *)
Theorem self_hosted_needs_own_key (s : AppSettings) :
  isSelfHosted features = true ->
  (forall c k, dropboxAppKey s <> Str (c :: k))
  \/ isBuiltInKey apps (dropboxAppKey s) ->
  needShowOpenConfig apps features s = true.
Proof.
  intros Hself Hkey. unfold needShowOpenConfig, isValidKey, canUseBuiltInKeys.
  rewrite Hself. cbn [negb].
  assert (Hb : str_eqb (getKey apps s) (id (AppFolder apps))
               || str_eqb (getKey apps s) (id (FullDropbox apps)) = true
               \/ getKey apps s = []).
  { assert (Hk : getKey apps s = id (AppFolder apps)
                 \/ getKey apps s = id (FullDropbox apps)).
    { unfold getKey. destruct Hkey as [Hunset | [Happ | Hfull]].
      - destruct (dropboxAppKey s) as [| |[|c k]]; auto.
        exfalso. now apply (Hunset c k).
      - rewrite Happ. destruct (id (AppFolder apps)); auto.
      - rewrite Hfull. destruct (id (FullDropbox apps)); auto. }
    left. apply orb_true_iff.
    destruct Hk as [-> | ->]; [left | right]; apply str_eqb_refl. }
  destruct Hb as [Hb | Hb].
  - rewrite Hb. cbn [negb orb]. now rewrite andb_false_r.
  - rewrite Hb. reflexivity.
Qed.

(** Choosing the link ["app"] or ["full"] makes the backend authorize with
    the built-in application and its own secret; a secret stored earlier
    stays in the settings but is not used. *)
Theorem link_uses_built_in_secret (w : World) :
  id (AppFolder apps) <> [] ->
  id (FullDropbox apps) <> [] ->
  id (FullDropbox apps) <> id (AppFolder apps) ->
  (getKey apps
          (settings (snd (applySetting apps locale base
                                       (js "link") (js "app") w)))
   = id (AppFolder apps)
   /\ getSecret apps
                (settings (snd (applySetting apps locale base
                                             (js "link") (js "app") w)))
      = Str (secret (AppFolder apps)))
  /\ (getKey apps
             (settings (snd (applySetting apps locale base
                                          (js "link") (js "full") w)))
      = id (FullDropbox apps)
      /\ getSecret apps
                   (settings (snd (applySetting apps locale base
                                                (js "link") (js "full") w)))
         = Str (secret (FullDropbox apps)))
  /\ dropboxSecret
       (settings (snd (applySetting apps locale base (js "link") (js "app") w)))
     = dropboxSecret (settings w)
  /\ dropboxSecret
       (settings (snd (applySetting apps locale base
                                    (js "link") (js "full") w)))
     = dropboxSecret (settings w).
Proof.
  intros Happ Hfull Hdiff.
  assert (Hset : forall v,
             settings (snd (bind (setAppKey v)
                                 (fun _ => catchNoop (logout base)) w))
             = withAppKey (settings w) v).
  { intros v. unfold bind, setAppKey, assign.
    now rewrite logout_swallowed. }
  change (applySetting apps locale base (js "link") (js "app") w)
    with (bind (setAppKey (id (AppFolder apps)))
               (fun _ => catchNoop (logout base)) w).
  change (applySetting apps locale base (js "link") (js "full") w)
    with (bind (setAppKey (id (FullDropbox apps)))
               (fun _ => catchNoop (logout base)) w).
  rewrite !Hset.
  assert (Hk1 : getKey apps (withAppKey (settings w) (id (AppFolder apps)))
                = id (AppFolder apps)) by (apply getKey_custom; auto).
  assert (Hk2 : getKey apps (withAppKey (settings w) (id (FullDropbox apps)))
                = id (FullDropbox apps)) by (apply getKey_custom; auto).
  unfold getSecret. rewrite Hk1, Hk2, str_eqb_refl.
  apply str_eqb_neq in Hdiff. rewrite Hdiff, str_eqb_refl.
  repeat split.
Qed.

(** The settings form shows the link that was chosen: after
    [applySetting('link', ...)] on an installation that may use the built-in
    keys, the link field carries the chosen value, and the fields offered
    are the link alone for ["app"], link and folder for ["full"], and link,
    key, secret and folder for ["custom"]. *)
Theorem getSettingsConfig_after_link (w : World) :
  isSelfHosted features = false ->
  id (AppFolder apps) <> [] ->
  id (FullDropbox apps) <> [] ->
  id (FullDropbox apps) <> id (AppFolder apps) ->
  ~ isBuiltInKey apps (Str (js "(" ++ dropboxAppKeyHint locale ++ js ")")) ->
  getSettingsConfig
    apps features labels
    (settings (snd (applySetting apps locale base (js "link") (js "app") w)))
  = [linkField labels (js "app")]
  /\ (exists folder,
        getSettingsConfig
          apps features labels
          (settings (snd (applySetting apps locale base
                                       (js "link") (js "full") w)))
        = [linkField labels (js "full"); folder]
        /\ field_id folder = js "folder")
  /\ (exists key sec folder,
        getSettingsConfig
          apps features labels
          (settings (snd (applySetting apps locale base
                                       (js "link") (js "custom") w)))
        = [linkField labels (js "custom"); key; sec; folder]
        /\ fieldIds [key; sec; folder] = [js "key"; js "secret"; js "folder"]
        /\ field_value key
           = Some (js "(" ++ dropboxAppKeyHint locale ++ js ")")).
Proof.
  intros Hhosted Happ Hfull Hdiff Hhint.
  assert (Hset : forall v,
             settings (snd (bind (setAppKey v)
                                 (fun _ => catchNoop (logout base)) w))
             = withAppKey (settings w) v).
  { intros v. unfold bind, setAppKey, assign.
    now rewrite logout_swallowed. }
  change (applySetting apps locale base (js "link") (js "app") w)
    with (bind (setAppKey (id (AppFolder apps)))
               (fun _ => catchNoop (logout base)) w).
  change (applySetting apps locale base (js "link") (js "full") w)
    with (bind (setAppKey (id (FullDropbox apps)))
               (fun _ => catchNoop (logout base)) w).
  change (applySetting apps locale base (js "link") (js "custom") w)
    with (bind (setAppKey (js "(" ++ dropboxAppKeyHint locale ++ js ")"))
               (fun _ => catchNoop (logout base)) w).
  rewrite !Hset. unfold getSettingsConfig, canUseBuiltInKeys.
  rewrite Hhosted. cbn [negb].
  rewrite !getKey_withAppKey by (assumption || discriminate).
  rewrite str_eqb_refl.
  apply str_eqb_neq in Hdiff. rewrite Hdiff, str_eqb_refl.
  assert (H1 : str_eqb (js "(" ++ dropboxAppKeyHint locale ++ js ")")
                       (id (AppFolder apps)) = false).
  { apply str_eqb_neq. intros E. apply Hhint. left. now rewrite E. }
  assert (H2 : str_eqb (js "(" ++ dropboxAppKeyHint locale ++ js ")")
                       (id (FullDropbox apps)) = false).
  { apply str_eqb_neq. intros E. apply Hhint. right. now rewrite E. }
  rewrite H1, H2.
  split; [reflexivity|]. split.
  - eexists. split; reflexivity.
  - do 3 eexists. repeat split.
Qed.

End WithApps.

End PathsAndConfiguration.

(* ===================================================================== *)
(** * Further properties of the configured folder                         *)
(* ===================================================================== *)

Section ConfiguredFolder.

Import Spec StorageDropbox.

Lemma trimStart_incl (s : jsstring) (c : Z) : In c (trimStart s) -> In c s.
Proof.
  induction s as [|x s IH]; [intros []|].
  cbn [trimStart]. destruct (isWhiteSpace x); [right; auto | auto].
Qed.

Lemma trimStart_head (s : jsstring) (c : Z) (rest : jsstring) :
  trimStart s = c :: rest -> isWhiteSpace c = false.
Proof.
  induction s as [|x s IH]; [discriminate|].
  cbn [trimStart]. destruct (isWhiteSpace x) eqn:E; [exact IH|].
  intros H. injection H as <- _. exact E.
Qed.

Lemma trim_incl (s : jsstring) (c : Z) : In c (trim s) -> In c s.
Proof.
  unfold trim, trimEnd. intros H. apply in_rev in H.
  apply trimStart_incl in H. apply in_rev in H. now apply trimStart_incl.
Qed.

Lemma trim_last (s before : jsstring) (c : Z) :
  trim s = before ++ [c] -> isWhiteSpace c = false.
Proof.
  unfold trim, trimEnd. intros H.
  apply (f_equal (@rev Z)) in H. rewrite rev_involutive, rev_app_distr in H.
  cbn in H. now apply trimStart_head in H.
Qed.

(** The folder [fixConfigFolder] returns holds no backslash and does not end
    in white space, and consists of code units of the value given, a slash
    standing for each backslash. *)
Theorem fixConfigFolder_clean (value : jsstring) :
  ~ In backslash (fixConfigFolder value)
  /\ (forall before c,
        fixConfigFolder value = before ++ [c] -> isWhiteSpace c = false)
  /\ (forall c, In c (fixConfigFolder value) ->
                In c value \/ (c = slash /\ In backslash value)).
Proof.
  assert (Hsub : forall c, In c (fixConfigFolder value) ->
                           In c (trim (backslashesToSlashes value))).
  { intros c. unfold fixConfigFolder.
    destruct (trim (backslashesToSlashes value)) as [|x rest]; [auto|].
    destruct (x =? slash); [|auto]. rewrite substr_one. now right. }
  assert (Hmap : forall c, In c (backslashesToSlashes value) ->
                           c <> backslash
                           /\ (In c value \/ (c = slash /\ In backslash value))).
  { intros c Hc. unfold backslashesToSlashes in Hc.
    apply in_map_iff in Hc as [x [Hx Hin]].
    destruct (Z.eqb_spec x backslash) as [E|Nx].
    - subst c. rewrite E in Hin.
      split; [unfold slash, backslash; lia | right; auto].
    - subst c. split; [assumption | left; assumption]. }
  refine (conj _ (conj _ _)).
  - intros H. apply Hsub, trim_incl, Hmap in H. now destruct H.
  - intros before c H. unfold fixConfigFolder in H.
    destruct (trim (backslashesToSlashes value)) as [|x rest] eqn:E.
    + now destruct before.
    + destruct (x =? slash).
      * rewrite substr_one in H. subst rest.
        apply (trim_last (backslashesToSlashes value) (x :: before) c).
        now rewrite E.
      * apply (trim_last (backslashesToSlashes value) before c). congruence.
  - intros c H. now apply Hsub, trim_incl, Hmap in H.
Qed.

End ConfiguredFolder.

(* ===================================================================== *)
(** * Further properties of the workspace                                 *)
(* ===================================================================== *)

Section WorkspaceMore.

Import Spec Workspace.

Variable toLowerCase : jsstring -> jsstring.

Lemma setAdd_spec (s : list jsstring) (x : jsstring) :
  NoDup s ->
  NoDup (setAdd s x) /\ (forall t, In t (setAdd s x) <-> In t s \/ t = x).
Proof.
  intros Hs. unfold setAdd. destruct (setHas s x) eqn:E.
  - apply setHas_In in E. split; [assumption|].
    intros t. split; [auto | intros [H | ->]; assumption].
  - assert (Hx : ~ In x s).
    { intros H. apply setHas_In in H. congruence. }
    split.
    + apply NoDup_rev in Hs. rewrite <- (rev_involutive (s ++ [x])).
      apply NoDup_rev. rewrite rev_app_distr. cbn.
      constructor; [now rewrite <- in_rev | assumption].
    + intros t. rewrite in_app_iff. cbn. intuition congruence.
Qed.

Lemma fold_setAdd_spec (ts s : list jsstring) :
  NoDup s ->
  NoDup (fold_left setAdd ts s)
  /\ (forall t, In t (fold_left setAdd ts s) <-> In t s \/ In t ts).
Proof.
  revert s. induction ts as [|x ts IH]; intros s Hs.
  - cbn. split; [assumption | intros t; tauto].
  - cbn [fold_left]. destruct (setAdd_spec s x Hs) as [Hn Hin].
    destruct (IH _ Hn) as [Hn' Hin']. split; [assumption|].
    intros t. rewrite Hin', Hin. cbn. intuition congruence.
Qed.

(** [getTags] returns every tag of the entries of the file once: the result
    has no repetition, and a tag is in it exactly when some entry of the
    file carries it. *)
Theorem getTags_set (file : File) :
  NoDup (getTags file)
  /\ (forall t,
        In t (getTags file)
        <-> exists entry entryTags,
              In entry (entriesMatching file)
              /\ entry_tags entry = Some entryTags
              /\ In t entryTags).
Proof.
  unfold getTags.
  assert (H : forall entries s,
             NoDup s ->
             NoDup (fold_left
                      (fun tags entry =>
                         match entry_tags entry with
                         | Some entryTags => fold_left setAdd entryTags tags
                         | None => tags
                         end) entries s)
             /\ (forall t,
                   In t (fold_left
                           (fun tags entry =>
                              match entry_tags entry with
                              | Some entryTags => fold_left setAdd entryTags tags
                              | None => tags
                              end) entries s)
                   <-> In t s
                       \/ exists entry entryTags,
                            In entry entries
                            /\ entry_tags entry = Some entryTags
                            /\ In t entryTags)).
  { induction entries as [|e entries IH]; intros s Hs.
    - cbn. split; [assumption|]. intros t. split; [auto|].
      intros [H | [e [ts [[] _]]]]. assumption.
    - cbn [fold_left]. destruct (entry_tags e) as [ts|] eqn:E.
      + destruct (fold_setAdd_spec ts s Hs) as [Hn Hin].
        destruct (IH _ Hn) as [Hn' Hin']. split; [assumption|].
        intros t. rewrite Hin', Hin. split.
        * intros [[H | H] | [e' [ts' [He' H]]]]; auto.
          -- right. exists e, ts. cbn. auto.
          -- right. exists e', ts'. cbn. tauto.
        * intros [H | [e' [ts' [[<- | He'] [Hts Ht]]]]]; auto.
          -- left. right. congruence.
          -- right. exists e', ts'. auto.
      + destruct (IH _ Hs) as [Hn' Hin']. split; [assumption|].
        intros t. rewrite Hin'. split.
        * intros [H | [e' [ts' [He' H]]]]; auto.
          right. exists e', ts'. cbn. tauto.
        * intros [H | [e' [ts' [[<- | He'] [Hts Ht]]]]]; auto.
          -- congruence.
          -- right. exists e', ts'. auto. }
  destruct (H (entriesMatching file) [] (NoDup_nil _)) as [Hn Hin].
  split; [assumption|]. intros t. rewrite Hin. split; [|auto].
  intros [[] | H']. assumption.
Qed.

(** A second update over the same files changes nothing and does not
    notify again. *)
Theorem updateTags_idempotent (files : list File) (w : WorkspaceT) :
  updateTags toLowerCase files (updateTags toLowerCase files w)
  = updateTags toLowerCase files w.
Proof.
  destruct (str_eqb (join [comma] (tags w))
                    (join [comma] (computeTags toLowerCase files)))
    eqn:E.
  - assert (H : updateTags toLowerCase files w = w)
      by (unfold updateTags; now rewrite E).
    now rewrite !H.
  - assert (H : updateTags toLowerCase files w
                = tagsChanged (mkWorkspace (computeTags toLowerCase files)
                                           (tagsSection w)))
      by (unfold updateTags; now rewrite E).
    rewrite H. unfold updateTags. rewrite tagsChanged_tags. cbn [tags].
    now rewrite str_eqb_refl.
Qed.

Lemma updateTags_notified (files : list File) (w : WorkspaceT) :
  notified w (updateTags toLowerCase files w) ->
  updateTags toLowerCase files w
  = tagsChanged (mkWorkspace (computeTags toLowerCase files) (tagsSection w)).
Proof.
  unfold notified, updateTags. destruct (negb _); [reflexivity|].
  intros H. now contradiction H.
Qed.


Lemma tagsChanged_calls (l : list jsstring) (calls : list MenuCall) :
  l <> [] ->
  tagsSection (tagsChanged (mkWorkspace l calls)) = calls ++ tagCalls l.
Proof.
  intros Hl. unfold tagsChanged. cbn [tags tagsSection].
  destruct l; [contradiction | reflexivity].
Qed.

(** Two notifications in a row, each over a non-empty list, send the tags
    section the items of the first list and then the items of the second:
    the section is never told to remove the items it was sent before. *)
Theorem tag_items_accumulate (files1 files2 : list File) (w : WorkspaceT) :
  computeTags toLowerCase files1 <> [] ->
  computeTags toLowerCase files2 <> [] ->
  notified w (updateTags toLowerCase files1 w) ->
  notified (updateTags toLowerCase files1 w)
           (updateTags toLowerCase files2 (updateTags toLowerCase files1 w)) ->
  tagsSection (updateTags toLowerCase files2 (updateTags toLowerCase files1 w))
  = tagsSection w ++ tagCalls (computeTags toLowerCase files1)
                  ++ tagCalls (computeTags toLowerCase files2)
  /\ ~ In RemoveAllItems
          (tagCalls (computeTags toLowerCase files1)
             ++ tagCalls (computeTags toLowerCase files2)).
Proof.
  intros H1 H2 N1 N2.
  rewrite (updateTags_notified _ _ N2), (updateTags_notified _ _ N1).
  rewrite !tagsChanged_calls by assumption. split.
  - now rewrite app_assoc.
  - intros Hin. apply in_app_or in Hin.
    destruct Hin as [[Hin | Hin] | [Hin | Hin]]; try discriminate;
      apply in_map_iff in Hin as [t [Ht _]]; discriminate.
Qed.

(** ** The filter *)








(** ** The file and group sections *)

Lemma findItem_file (items : list SectionItem) (file : OpenFile)
      (it : SectionItem) :
  findItem items file = Some it ->
  In it items /\ item_file it = Some (file_id file).
Proof.
  unfold findItem. intros H. apply find_some in H as [Hin Heq].
  split; [assumption|]. destruct (item_file it); [|discriminate].
  apply Nat.eqb_eq in Heq. now subst.
Qed.

Lemma visitFile_fold (menu : MenuSections) (files : list OpenFile)
      (groups items : list SectionItem) :
  fold_left (visitFile menu) files (groups, items)
  = (groups ++ flat_map (fun f => optionToList (groupItemFor menu f)) files,
     items ++ map (fileItemFor menu) files).
Proof.
  revert groups items. induction files as [|file files IH]; intros groups items.
  - cbn. now rewrite !app_nil_r.
  - cbn [fold_left flat_map map]. unfold visitFile at 2.
    unfold groupItemFor, fileItemFor, freshFileItem.
    destruct (findItem (groupsSection menu) file) as [g|];
      destruct (findItem (filesSection menu) file) as [i|];
      [| | destruct (file_groups file) as [|g0 gs]
           | destruct (file_groups file) as [|g0 gs]];
      rewrite IH; cbn [optionToList hd_error app];
      rewrite <- ?app_assoc, ?app_nil_r; reflexivity.
Qed.

Lemma filesChanged_menu (files : list OpenFile) (w : WorkspaceT)
      (menu : MenuSections) :
  filesChanged toLowerCase files (w, menu)
  = (updateTags toLowerCase (map file_entries files) w,
     mkMenuSections
       (flat_map (fun f => optionToList (groupItemFor menu f)) files)
       (map (fileItemFor menu) files)).
Proof.
  unfold filesChanged. now rewrite visitFile_fold.
Qed.

Lemma fileItemFor_file (menu : MenuSections) (file : OpenFile) :
  item_file (fileItemFor menu file) = Some (file_id file).
Proof.
  unfold fileItemFor.
  destruct (findItem (filesSection menu) file) as [it|] eqn:E.
  - now apply findItem_file in E.
  - reflexivity.
Qed.

Lemma findItem_rebuilt (menu : MenuSections) (files : list OpenFile)
      (file : OpenFile) :
  identified files ->
  In file files ->
  findItem (map (fileItemFor menu) files) file = Some (fileItemFor menu file).
Proof.
  intros Hid Hin. unfold findItem.
  assert (H : forall l, (forall f, In f l -> In f files) -> In file l ->
                        find (fun it => match item_file it with
                                        | Some i => Nat.eqb i (file_id file)
                                        | None => false
                                        end)
                             (map (fileItemFor menu) l)
                        = Some (fileItemFor menu file)).
  { induction l as [|f l IH]; intros Hsub Hl; [destruct Hl|].
    cbn [map find]. rewrite fileItemFor_file.
    destruct (Nat.eqb_spec (file_id f) (file_id file)) as [E|N].
    - f_equal. f_equal. apply Hid; auto. apply Hsub. now left.
    - apply IH.
      + intros f' Hf'. apply Hsub. now right.
      + destruct Hl as [-> | Hl]; [contradiction | assumption]. }
  apply H; auto.
Qed.

(** What [filesChanged] leaves in the menu.  The files section gets one
    item per open file, in the order of the files, each bearing its file:
    the item the section had for the file, kept as it was, or else a fresh
    item named after the file; items of files that are no longer open are
    gone.  The groups section gets, in the same order, the group item it had
    for a file or else the first group of the file, and nothing for a file
    that has neither.  The tag list is updated over the same files.  A
    second call over the same files leaves the files section as it is. *)
Theorem filesChanged_sections (files : list OpenFile) (w : WorkspaceT)
        (menu : MenuSections) :
  identified files ->
  fst (filesChanged toLowerCase files (w, menu))
  = updateTags toLowerCase (map file_entries files) w
  /\ filesSection (snd (filesChanged toLowerCase files (w, menu)))
     = map (fileItemFor menu) files
  /\ map item_file (filesSection (snd (filesChanged toLowerCase files (w, menu))))
     = map (fun file => Some (file_id file)) files
  /\ (forall it,
        In it (filesSection (snd (filesChanged toLowerCase files (w, menu)))) ->
        In it (filesSection menu)
        \/ exists file, In file files /\ it = freshFileItem file)
  /\ groupsSection (snd (filesChanged toLowerCase files (w, menu)))
     = flat_map (fun f => optionToList (groupItemFor menu f)) files
  /\ filesSection
       (snd (filesChanged toLowerCase files
                          (filesChanged toLowerCase files (w, menu))))
     = filesSection (snd (filesChanged toLowerCase files (w, menu))).
Proof.
  intros Hid. rewrite !filesChanged_menu. cbn [fst snd filesSection groupsSection].
  refine (conj eq_refl (conj eq_refl (conj _ (conj _ (conj eq_refl _))))).
  - rewrite map_map. apply map_ext. apply fileItemFor_file.
  - intros it Hin. apply in_map_iff in Hin as [file [<- Hfile]].
    unfold fileItemFor.
    destruct (findItem (filesSection menu) file) as [old|] eqn:E.
    + left. now apply findItem_file in E.
    + right. now exists file.
  - apply map_ext_in. intros file Hfile. unfold fileItemFor at 1.
    cbn [filesSection]. now rewrite findItem_rebuilt.
Qed.

End WorkspaceMore.

(* ===================================================================== *)
(** * Properties of the open view                                         *)
(* ===================================================================== *)

Section OpenViewFacts.

Import Spec OpenView.

Variable storages : jsstring -> option bool.

Lemma applyConfig_accepted (random : Z) (config : OpenConfig) (v : View) :
  busy v = false ->
  openConfig v = true ->
  storages (config_storage config) <> None ->
  exists call,
    applyConfig storages random (Some config) v
    = (Returned tt,
       mkView true (Some random) true
              (effects v ++ [ConfigViewSetDisabled true] ++ [call]))
    /\ (call = StorageApplyConfig (requestOf random config)
        \/ call = StorageStat (requestOf random config)).
Proof.
  intros Hbusy Hview Hstorage. unfold applyConfig. rewrite Hbusy.
  cbn [openConfig busy storageWaitId effects emit]. rewrite Hview. cbn [negb].
  fold (requestOf random config).
  destruct (storages (config_storage config)) as [[|]|]; [| |contradiction];
    eexists; (split;
      [unfold emit; cbn [busy storageWaitId openConfig effects];
       rewrite <- app_assoc; reflexivity | auto]).
Qed.

(** A completion that arrives after the configuration was closed is
    ignored, be it of [applyConfig] or of [stat], and so is one that arrives
    after a later request was started with another identifier: the view
    stays as it is, busy with the later request. *)
Theorem late_completion_is_ignored
        (v : View) (config config' : OpenConfig) (random random' : Z)
        (name : jsstring) (err stat : JsVal) :
  busy v = false ->
  openConfig v = true ->
  storages (config_storage config) <> None ->
  storages (config_storage config') <> None ->
  random <> random' ->
  storageApplyConfigComplete
    (requestOf random config) err
    (closeConfig (snd (applyConfig storages random (Some config) v)))
  = (Returned tt,
     closeConfig (snd (applyConfig storages random (Some config) v)))
  /\ storageApplyConfigComplete
       (requestOf random config) err
       (snd (applyConfig
               storages random' (Some config')
               (showConfig
                  name
                  (closeConfig
                     (snd (applyConfig storages random (Some config) v))))))
     = (Returned tt,
        snd (applyConfig
               storages random' (Some config')
               (showConfig
                  name
                  (closeConfig
                     (snd (applyConfig storages random (Some config) v))))))
  /\ storageWaitId
       (snd (applyConfig
               storages random' (Some config')
               (showConfig
                  name
                  (closeConfig
                     (snd (applyConfig storages random (Some config) v))))))
     = Some random'
  /\ storageStatComplete
       (requestOf random config) err stat
       (closeConfig (snd (applyConfig storages random (Some config) v)))
     = (Returned tt,
        closeConfig (snd (applyConfig storages random (Some config) v))).
Proof.
  intros Hbusy Hview Hs Hs' Hdiff.
  destruct (applyConfig_accepted random config v Hbusy Hview Hs)
    as [call [-> _]].
  cbn [snd].
  assert (Hlast : forall A B C D : Prop, A -> D -> (B /\ C) -> A /\ B /\ C /\ D)
    by tauto.
  apply Hlast; [reflexivity | reflexivity |].
  match goal with
  | |- context [showConfig name ?x] => set (v2 := x)
  end.
  assert (Hb2 : busy (showConfig name v2) = false) by reflexivity.
  assert (Ho2 : openConfig (showConfig name v2) = true) by reflexivity.
  destruct (applyConfig_accepted random' config' _ Hb2 Ho2 Hs')
    as [call' [-> _]].
  cbn [snd]. unfold storageApplyConfigComplete.
  cbn [storageWaitId requestOf req_waitId].
  destruct (Z.eqb_spec random' random) as [E|_]; [congruence|].
  split; reflexivity.
Qed.

(** In every view reached by [showConfig], [closeConfig], [applyConfig],
    [storageApplyConfigComplete] and [storageStatComplete], a pending
    request identifier means the view is busy; so a call of [applyConfig]
    that does anything at all starts from a view with no request pending:
    through these methods there is never more than one request awaited. *)
Theorem one_pending_request (v : View) :
  reachableView storages v ->
  (storageWaitId v <> None -> busy v = true)
  /\ (forall random config,
        snd (applyConfig storages random config v) <> v ->
        storageWaitId v = None).
Proof.
  intros Hreach.
  assert (Hinv : storageWaitId v <> None -> busy v = true).
  { induction Hreach as [|name v _ IH|v _ IH|random config v _ IH
                         |req err v _ IH|req err stat v _ IH].
    - intros H. now contradiction H.
    - unfold showConfig. destruct (busy v) eqn:Hb; [now rewrite Hb|].
      destruct (openConfig v); cbn; intros H;
        specialize (IH H); congruence.
    - unfold closeConfig. destruct (busy v) eqn:Hb.
      + destruct (openConfig v); cbn; intros H; now contradiction H.
      + destruct (openConfig v); cbn; intros H;
          specialize (IH H); congruence.
    - unfold applyConfig. destruct config as [config|]; [|exact IH].
      destruct (busy v) eqn:Hb; [cbn [snd]; now rewrite Hb|].
      cbn [openConfig busy storageWaitId effects emit].
      destruct (openConfig v); cbn [negb snd busy]; [|reflexivity].
      destruct (storages (config_storage config)) as [[|]|]; reflexivity.
    - unfold storageApplyConfigComplete.
      destruct (storageWaitId v) as [current|] eqn:Hw;
        [|cbn [snd]; intros H; congruence].
      destruct (current =? req_waitId req).
      + cbn [openConfig busy storageWaitId effects].
        destruct (truthy err).
        * destruct (openConfig v); cbn; intros H; now contradiction H.
        * unfold closeConfig. cbn [openConfig busy storageWaitId effects].
          destruct (openConfig v); cbn; intros H; now contradiction H.
      + cbn [snd]. intros _. apply IH. discriminate.
    - unfold storageStatComplete.
      destruct (storageWaitId v) as [current|] eqn:Hw;
        [|cbn [snd]; intros H; congruence].
      destruct (current =? req_waitId req).
      + cbn [openConfig busy storageWaitId effects].
        destruct (truthy err).
        * destruct (openConfig v); cbn; intros H; now contradiction H.
        * unfold closeConfig. cbn [openConfig busy storageWaitId effects].
          destruct (getProp stat (js "rev")); destruct (openConfig v); cbn;
            intros H; now contradiction H.
      + cbn [snd]. intros _. apply IH. discriminate. }
  split; [exact Hinv|].
  intros random config Hchange.
  destruct (storageWaitId v) as [current|] eqn:Hw; [|reflexivity].
  exfalso. apply Hchange. unfold applyConfig.
  rewrite Hinv by discriminate. now destruct config.
Qed.

End OpenViewFacts.

(* ===================================================================== *)
(** * Further instances                                                   *)
(* ===================================================================== *)

Section FurtherInstances.

Import Spec StorageDropbox.

Lemma unauthorized_sends_nothing_witness :
  stat (unauthorized (Error (js "No token"))) (js "/db.kdbx") emptyWorld
  = (Threw (Error (js "No token")), authorizing emptyWorld).
Proof.
  exact (proj1 (unauthorized_sends_nothing asciiLower
                  (unauthorized (Error (js "No token")))
                  (Error (js "No token")) (js "/db.kdbx") [] None None
                  emptyWorld eq_refl)).
Defined.

Lemma one_request_per_operation_witness :
  snd (mkdir (refusing conflictError) (js "/sub") emptyWorld)
  = called (mkdirArgs emptyWorld (js "/sub")) emptyWorld.
Proof.
  exact (proj2 (proj2 (proj2 (proj2
           (one_request_per_operation asciiLower
              (refusing conflictError) (js "/sub") [] None None
              emptyWorld eq_refl))))).
Defined.

Lemma apiCall_failure_without_status_witness :
  fst (apiCall (refusing (ThrownValue (JStr (js "timeout"))))
               (statRequest (js "/db.kdbx")) emptyWorld)
  = Threw (Error (js "API error, status code 0")).
Proof.
  refine (proj2 (apiCall_failure_without_status
                   (refusing (ThrownValue (JStr (js "timeout"))))
                   (statRequest (js "/db.kdbx")) emptyWorld
                   (JStr (js "timeout")) eq_refl eq_refl)
                eq_refl _).
  intros [pathFields [H _]]. discriminate H.
Defined.

Lemma remove_mkdir_outcome_witness :
  fst (remove (answering JNull) (js "/db.kdbx") emptyWorld) = Returned tt
  /\ fst (mkdir (refusing notFoundError) (js "/a/b") emptyWorld)
     = Threw StorageFileNotFoundError.
Proof.
  split.
  - exact (proj1 (remove_mkdir_outcome (answering JNull) (js "/db.kdbx")
                                       emptyWorld eq_refl)
                 (mkHttpResponse 200 JNull []) eq_refl).
  - refine (proj2 (proj2 (proj2
              (remove_mkdir_outcome (refusing notFoundError) (js "/a/b")
                                    emptyWorld eq_refl)))
              notFoundError eq_refl _).
    exists [(js ".tag", JStr (js "not_found"))]. split; reflexivity.
Defined.

Lemma list_keeps_well_formed_entries_witness :
  fst (list asciiLower (answering
               (JObj [(js "entries",
                       JArr [badEntry; goodEntry; JStr (js "x"); goodEntry])]))
            None emptyWorld)
  = Returned [mkListItem (js "db.kdbx") (js "/db.kdbx") (Some (js "abc")) false;
              mkListItem (js "db.kdbx") (js "/db.kdbx") (Some (js "abc")) false].
Proof.
  refine (list_keeps_well_formed_entries asciiLower
            (answering
               (JObj [(js "entries",
                       JArr [badEntry; goodEntry; JStr (js "x"); goodEntry])]))
            None emptyWorld
            (mkHttpResponse
               200
               (JObj [(js "entries",
                       JArr [badEntry; goodEntry; JStr (js "x"); goodEntry])])
               [])
            [badEntry; goodEntry; JStr (js "x"); goodEntry]
            eq_refl eq_refl eq_refl _).
  repeat constructor.
Defined.

Lemma list_without_entries_witness :
  fst (list asciiLower (answering (JObj [(js "entries", JStr (js "none"))]))
            (Some (js "/sub")) emptyWorld)
  = Threw (Error (js "Empty response")).
Proof.
  refine (list_without_entries asciiLower
            (answering (JObj [(js "entries", JStr (js "none"))]))
            (Some (js "/sub")) emptyWorld
            (mkHttpResponse 200 (JObj [(js "entries", JStr (js "none"))]) [])
            eq_refl eq_refl _).
  intros entries H. discriminate H.
Defined.

Lemma list_null_entry_throws_witness :
  fst (list asciiLower (answering
               (JObj [(js "entries", JArr [goodEntry; JUndefined; badEntry])]))
            None emptyWorld)
  = Threw TypeError.
Proof.
  refine (list_null_entry_throws asciiLower
            (answering
               (JObj [(js "entries", JArr [goodEntry; JUndefined; badEntry])]))
            None emptyWorld
            (mkHttpResponse
               200
               (JObj [(js "entries", JArr [goodEntry; JUndefined; badEntry])])
               [])
            [goodEntry] [badEntry] JUndefined
            eq_refl eq_refl eq_refl _ eq_refl).
  repeat constructor.
Defined.

(** A root spelled with a capital E acute, met in the backend path with a
    small one. *)
Lemma toRelPath_strips_root_any_case_witness :
  toRelPath latin1Lower (withFolder [201; 116; 233])
            ([slash; 233; 116; 233] ++ js "/sub/db.kdbx")
  = js "/sub/db.kdbx".
Proof.
  refine (proj2 (toRelPath_strips_root_any_case
                   latin1Lower [201; 116; 233] [233; 116; 233]
                   (js "sub/db.kdbx") latin1Lower_keepsSlashes
                   _ eq_refl eq_refl)
                eq_refl).
  discriminate.
Defined.

Lemma toFullPath_of_listed_path_witness :
  toFullPath (withFolder (js "My/Vault"))
             (toRelPath asciiLower (withFolder (js "My/Vault"))
                        (js "/My/Vault/sub/db.kdbx"))
  = js "/My/Vault/sub/db.kdbx".
Proof.
  apply (toFullPath_of_listed_path asciiLower (js "My/Vault")
                                   (js "sub//db.kdbx")
                                   asciiLower_keepsSlashes).
  - discriminate.
  - reflexivity.
Defined.

Lemma applyConfig_then_configured_witness :
  needShowOpenConfig
    sampleApps selfHosted
    (settings (snd (applyConfig
                      sampleApps
                      (mkConfig (Str (js "mykey")) (Str (js "s")) Undefined)
                      emptyWorld)))
  = false.
Proof.
  refine (proj2 (proj2 (proj2
            (applyConfig_then_configured
               sampleApps selfHosted
               (mkConfig (Str (js "mykey")) (Str (js "s")) Undefined)
               (js "mykey") (js "s") emptyWorld eq_refl eq_refl _ _ _)))).
  - split; [discriminate | reflexivity].
  - discriminate.
  - intros [H | H]; discriminate H.
Defined.

Lemma self_hosted_needs_own_key_witness :
  needShowOpenConfig sampleApps selfHosted (settings emptyWorld) = true
  /\ needShowOpenConfig sampleApps selfHosted
                        (customSettings (js "fulldropboxkey") (js "s"))
     = true.
Proof.
  split.
  - refine (self_hosted_needs_own_key sampleApps selfHosted
                                      (settings emptyWorld) eq_refl _).
    left. intros c k H. discriminate H.
  - refine (self_hosted_needs_own_key
              sampleApps selfHosted
              (customSettings (js "fulldropboxkey") (js "s")) eq_refl _).
    right. right. reflexivity.
Defined.

Lemma link_uses_built_in_secret_witness :
  getSecret
    sampleApps
    (settings (snd (applySetting
                      sampleApps sampleLocale failingRevoke
                      (js "link") (js "full")
                      (mkWorld (customSettings (js "mykey") (js "mine")) []))))
  = Str (js "s2").
Proof.
  refine (proj2 (proj1 (proj2
            (link_uses_built_in_secret
               sampleApps sampleLocale failingRevoke
               (mkWorld (customSettings (js "mykey") (js "mine")) [])
               _ _ _)))); discriminate.
Defined.

Lemma getSettingsConfig_after_link_witness :
  getSettingsConfig
    sampleApps hosted sampleLabels
    (settings (snd (applySetting
                      sampleApps sampleLocale (answering JNull)
                      (js "link") (js "app") emptyWorld)))
  = [linkField sampleLabels (js "app")].
Proof.
  refine (proj1 (getSettingsConfig_after_link
                   sampleApps hosted sampleLabels sampleLocale
                   (answering JNull) emptyWorld eq_refl _ _ _ _));
    try discriminate.
  intros [H | H]; discriminate H.
Defined.

Lemma tag_items_accumulate_witness :
  Workspace.tagsSection
    (Workspace.updateTags
       asciiLower otherFiles
       (Workspace.updateTags asciiLower sampleFiles Workspace.initial))
  = tagCalls [js "Bank"; js "Work"; js "home"] ++ tagCalls [js "Mail"].
Proof.
  refine (proj1 (tag_items_accumulate asciiLower sampleFiles otherFiles
                                      Workspace.initial _ _ _ _)).
  - discriminate.
  - discriminate.
  - unfold notified. discriminate.
  - unfold notified. intros H.
    apply (f_equal (@List.length Workspace.MenuCall)) in H. discriminate H.
Defined.

Lemma filesChanged_sections_witness :
  Workspace.filesSection
    (snd (Workspace.filesChanged asciiLower sampleOpenFiles
                                 (Workspace.initial, sampleMenu)))
  = [Workspace.mkSectionItem (js "lock") (js "Old name") (js "file")
                             (Some 1%nat);
     Workspace.mkSectionItem (js "lock") (js "Empty") (js "file")
                             (Some 2%nat)].
Proof.
  refine (proj1 (proj2
            (filesChanged_sections asciiLower sampleOpenFiles Workspace.initial
                                   sampleMenu _))).
  intros f1 f2 [<- | [<- | []]] [<- | [<- | []]] H;
    try reflexivity; discriminate H.
Defined.

Lemma late_completion_is_ignored_witness :
  OpenView.storageApplyConfigComplete
    (requestOf 7 sampleOpenConfig) JNull
    (OpenView.closeConfig
       (snd (OpenView.applyConfig
               sampleStorages 7 (Some sampleOpenConfig)
               (OpenView.showConfig (js "dropbox") OpenView.initial))))
  = (Returned tt,
     OpenView.closeConfig
       (snd (OpenView.applyConfig
               sampleStorages 7 (Some sampleOpenConfig)
               (OpenView.showConfig (js "dropbox") OpenView.initial)))).
Proof.
  refine (proj1 (late_completion_is_ignored
                   sampleStorages
                   (OpenView.showConfig (js "dropbox") OpenView.initial)
                   sampleOpenConfig sampleOpenConfig 7 8 (js "dropbox")
                   JNull JNull eq_refl eq_refl _ _ _)); discriminate.
Defined.

Lemma one_pending_request_witness :
  OpenView.busy
    (snd (OpenView.applyConfig
            sampleStorages 7 (Some sampleOpenConfig)
            (OpenView.showConfig (js "dropbox") OpenView.initial)))
  = true
  /\ OpenView.storageWaitId
       (OpenView.closeConfig
          (snd (OpenView.applyConfig
                  sampleStorages 7 (Some sampleOpenConfig)
                  (OpenView.showConfig (js "dropbox") OpenView.initial))))
     = None.
Proof.
  split.
  - refine (proj1 (one_pending_request
                     sampleStorages _
                     (reach_apply sampleStorages 7 (Some sampleOpenConfig) _
                        (reach_show sampleStorages (js "dropbox") _
                           (reach_new sampleStorages)))) _).
    discriminate.
  - refine (proj2 (one_pending_request
                     sampleStorages _
                     (reach_close sampleStorages _
                        (reach_apply sampleStorages 7 (Some sampleOpenConfig) _
                           (reach_show sampleStorages (js "dropbox") _
                              (reach_new sampleStorages)))))
                  8 (Some sampleOpenConfig) _).
    intros H. apply (f_equal OpenView.busy) in H. discriminate H.
Defined.

End FurtherInstances.
